(** * Shallow embedding of srsenb/src/stack/mac/nr/mac_nr.cc

    The NR MAC of the eNodeB: per-slot downlink assembly ([get_dl_config],
    [slot_indication]), uplink hand-off ([rx_data_indication],
    [process_pdus], [handle_pdu]) and cell configuration ([cell_cfg]).

    Conventions:
    - bytes are [Z] values, buffers are [list Z];
    - 32-bit unsigned arithmetic is written out with [u32];
    - calls to collaborators (RRC, RLC, PHY, stack) are appended to a call
      trace held in the MAC state; their answers come from an environment;
    - a C++ crash (uncaught exception, division by zero) is [None]. *)

From Stdlib Require Import ZArith List Bool Lia.
Import ListNotations.
Open Scope Z_scope.

Definition bytes := list Z.

(** [uint32_t] wrap-around. *)
Definition u32 (z : Z) : Z := z mod 2 ^ 32.

(** Constants of the headers the file includes. *)
Definition SRSRAN_SUCCESS : Z := 0.
Definition SRSRAN_ERROR : Z := -1.
(** [SRSRAN_FDD_NOF_HARQ]: the source allocates "8 tx buffers". *)
Definition SRSRAN_FDD_NOF_HARQ : Z := 8.
(** [sched_interface::MAX_SIBS]. *)
Definition MAX_SIBS : Z := 16.

(* ------------------------------------------------------------------ *)
(** ** MAC PDU codec *)

(** Modelled from the spec: the MAC SCH PDU codec ([mac_sch_pdu_nr],
    section 4.1 of the spec), whose source is not part of mac_nr.cc.
    The sub-header is the NR layout the spec refers to as the wire
    contract with the peer: one byte R/F/LCID (LCID in the low 6 bits,
    F in bit 6) followed by an 8-bit length when F = 0 or a 16-bit
    length when F = 1; LCID 63 is padding, has no length field and
    consumes the rest of the buffer. *)
Module MacPdu.

Definition PADDING : Z := 63.

(** Sub-header size of an SDU of [len] bytes. *)
Definition size_header_sdu (len : Z) : Z :=
  if len <? 256 then 2 else 3.

Definition write_subheader (lcid len : Z) : bytes :=
  if len <? 256 then [lcid; len]
  else [Z.lor 64 lcid; Z.shiftr len 8; Z.land len 255].

(** A transmit PDU under construction ([init_tx]): the budget left and
    the sub-PDUs added so far. *)
Record tx_pdu := { remaining_len : Z; subpdus : list (Z * bytes) }.

Definition init_tx (tb_size : Z) : tx_pdu :=
  {| remaining_len := tb_size; subpdus := [] |}.

(** [add_sdu]: rejected (nothing added) when sub-header and SDU exceed the
    space left, or when the length does not fit the 16-bit L field. *)
Definition add_sdu (p : tx_pdu) (lcid : Z) (sdu : bytes) : tx_pdu :=
  let len := Z.of_nat (length sdu) in
  let hs := size_header_sdu len in
  if (remaining_len p <? hs + len) || (65536 <=? len) then p
  else {| remaining_len := remaining_len p - (hs + len);
          subpdus := subpdus p ++ [(lcid, sdu)] |}.

Definition pack (p : tx_pdu) : bytes :=
  flat_map (fun '(lcid, sdu) => write_subheader lcid (Z.of_nat (length sdu)) ++ sdu)
    (subpdus p).

(** Packing a list of (lcid, SDU) pairs into a budget. *)
Definition pack_list (budget : Z) (l : list (Z * bytes)) : bytes :=
  pack (fold_left (fun p '(lcid, sdu) => add_sdu p lcid sdu) l (init_tx budget)).

(** [unpack]: [None] is a malformed PDU. *)
Fixpoint unpack_fuel (fuel : nat) (b : bytes) : option (list (Z * bytes)) :=
  match fuel with
  | O => match b with [] => Some [] | _ => None end
  | S fuel' =>
    match b with
    | [] => Some []
    | h :: t =>
      let lcid := Z.land h 63 in
      if lcid =? PADDING then Some [(lcid, t)]
      else
        let hdr :=
          if Z.testbit h 6 then
            match t with l1 :: l2 :: r => Some (l1 * 256 + l2, r) | _ => None end
          else
            match t with l1 :: r => Some (l1, r) | _ => None end in
        match hdr with
        | None => None
        | Some (len, r) =>
          if Z.of_nat (length r) <? len then None
          else
            match unpack_fuel fuel' (skipn (Z.to_nat len) r) with
            | None => None
            | Some rest => Some ((lcid, firstn (Z.to_nat len) r) :: rest)
            end
        end
    end
  end.

Definition unpack (b : bytes) : option (list (Z * bytes)) :=
  unpack_fuel (length b) b.

End MacPdu.

(* ------------------------------------------------------------------ *)
(** ** Interface types *)

(** [tx_request_pdu_t.data[0]] is a borrowed pointer into one of the
    MAC's own buffers; the buffer it points to is named here. *)
Inductive buf_ref :=
| BcchBchPayload                 (* bcch_bch_payload->msg *)
| BcchDlschPayload (k : nat)     (* bcch_dlsch_payload[k].payload->msg *)
| UeTxBuffer (i : Z).            (* ue_tx_buffer.at(i)->msg *)

Record tx_request_pdu := {
  mib_present : bool;            (* pbch.mib_present *)
  data0 : buf_ref;               (* data[0] *)
  pdu_length : Z;                (* length *)
  pdu_index : Z                  (* index *)
}.

(** [tx_request_t]: [nof_pdus] is the length of [pdus]. *)
Record tx_request := { tx_tti : Z; pdus : list tx_request_pdu }.

Definition nof_pdus (r : tx_request) : Z := Z.of_nat (length (pdus r)).

Record dl_config_request := { cfg_tti : Z }.

(** [sched_interface::sib_info_t] of the cell configuration. *)
Record sched_sib_info := { len : Z; period_rf : Z }.

(** [cell_cfg_t]; only its SIB array is read. *)
Record cell_cfg_t := { sibs : list sched_sib_info }.

Definition sibs0 (c : cell_cfg_t) : sched_sib_info :=
  hd {| len := 0; period_rf := 0 |} (sibs c).

(** [mac_nr::sib_info_t]. *)
Record sib_info := { index : Z; periodicity : Z; payload : bytes }.

Record mac_nr_args_t := { rnti : Z; tb_size : Z }.

(** Calls the MAC makes to its collaborators. *)
Inductive call :=
| RrcReadPduBcchBch (tti : Z)
| RrcReadPduBcchDlsch (sib_index : Z)
| RlcReadPdu (rnti lcid nof_bytes : Z)
| RlcWritePdu (rnti lcid : Z) (sdu : bytes)
| PhyDlConfigRequest (c : dl_config_request)
| PhyTxRequest (r : tx_request)
| StackProcessPdus.

(** Answers of the collaborators and of the buffer pool. The pool either
    supplies every buffer asked for or none: a pool that runs out midway
    through [init]'s HARQ loop, leaving some buffers allocated, is not
    modelled. *)
Record env := {
  rrc_read_pdu_bcch_bch : Z -> option bytes;     (* None: not SRSRAN_SUCCESS *)
  rrc_read_pdu_bcch_dlsch : Z -> option bytes;   (* None: not SRSRAN_SUCCESS *)
  rlc_read_pdu : Z -> Z -> Z -> Z * bytes;       (* returned int, bytes written *)
  make_byte_buffer_ok : bool                     (* false: pool exhausted *)
}.

(** The members of [mac_nr] (pcap and logger are observers only). *)
Record mac_nr := {
  started : bool;
  args : mac_nr_args_t;
  cfg : cell_cfg_t;
  bcch_bch_payload : bytes;
  bcch_dlsch_payload : list sib_info;
  ue_tx_buffer : list bytes;
  ue_rlc_buffer : bytes;
  ue_rx_pdu_queue : list bytes;
  calls : list call
}.

(* ------------------------------------------------------------------ *)
(** ** A state and crash monad *)

Definition M (A : Type) := mac_nr -> option (A * mac_nr).

Definition ret {A} (a : A) : M A := fun st => Some (a, st).
Definition bind {A B} (m : M A) (k : A -> M B) : M B :=
  fun st => match m st with Some (a, st') => k a st' | None => None end.
Definition crash {A} : M A := fun _ => None.
Definition get : M mac_nr := fun st => Some (st, st).
Definition put (st : mac_nr) : M unit := fun _ => Some (tt, st).

Notation "x <- m ;; k" := (bind m (fun x => k))
  (at level 61, m at next level, right associativity).
Notation "m ;;; k" := (bind m (fun _ => k))
  (at level 61, right associativity).

Definition modify (f : mac_nr -> mac_nr) : M unit := fun st => Some (tt, f st).

Definition with_started b st :=
  {| started := b; args := args st; cfg := cfg st;
     bcch_bch_payload := bcch_bch_payload st;
     bcch_dlsch_payload := bcch_dlsch_payload st; ue_tx_buffer := ue_tx_buffer st;
     ue_rlc_buffer := ue_rlc_buffer st; ue_rx_pdu_queue := ue_rx_pdu_queue st;
     calls := calls st |}.
Definition with_args a st :=
  {| started := started st; args := a; cfg := cfg st;
     bcch_bch_payload := bcch_bch_payload st;
     bcch_dlsch_payload := bcch_dlsch_payload st; ue_tx_buffer := ue_tx_buffer st;
     ue_rlc_buffer := ue_rlc_buffer st; ue_rx_pdu_queue := ue_rx_pdu_queue st;
     calls := calls st |}.
Definition with_cfg c st :=
  {| started := started st; args := args st; cfg := c;
     bcch_bch_payload := bcch_bch_payload st;
     bcch_dlsch_payload := bcch_dlsch_payload st; ue_tx_buffer := ue_tx_buffer st;
     ue_rlc_buffer := ue_rlc_buffer st; ue_rx_pdu_queue := ue_rx_pdu_queue st;
     calls := calls st |}.
Definition with_bch p st :=
  {| started := started st; args := args st; cfg := cfg st;
     bcch_bch_payload := p;
     bcch_dlsch_payload := bcch_dlsch_payload st; ue_tx_buffer := ue_tx_buffer st;
     ue_rlc_buffer := ue_rlc_buffer st; ue_rx_pdu_queue := ue_rx_pdu_queue st;
     calls := calls st |}.
Definition with_sibs s st :=
  {| started := started st; args := args st; cfg := cfg st;
     bcch_bch_payload := bcch_bch_payload st;
     bcch_dlsch_payload := s; ue_tx_buffer := ue_tx_buffer st;
     ue_rlc_buffer := ue_rlc_buffer st; ue_rx_pdu_queue := ue_rx_pdu_queue st;
     calls := calls st |}.
Definition with_tx_buffer b st :=
  {| started := started st; args := args st; cfg := cfg st;
     bcch_bch_payload := bcch_bch_payload st;
     bcch_dlsch_payload := bcch_dlsch_payload st; ue_tx_buffer := b;
     ue_rlc_buffer := ue_rlc_buffer st; ue_rx_pdu_queue := ue_rx_pdu_queue st;
     calls := calls st |}.
Definition with_rlc_buffer b st :=
  {| started := started st; args := args st; cfg := cfg st;
     bcch_bch_payload := bcch_bch_payload st;
     bcch_dlsch_payload := bcch_dlsch_payload st; ue_tx_buffer := ue_tx_buffer st;
     ue_rlc_buffer := b; ue_rx_pdu_queue := ue_rx_pdu_queue st;
     calls := calls st |}.
Definition with_queue q st :=
  {| started := started st; args := args st; cfg := cfg st;
     bcch_bch_payload := bcch_bch_payload st;
     bcch_dlsch_payload := bcch_dlsch_payload st; ue_tx_buffer := ue_tx_buffer st;
     ue_rlc_buffer := ue_rlc_buffer st; ue_rx_pdu_queue := q;
     calls := calls st |}.
Definition with_calls c st :=
  {| started := started st; args := args st; cfg := cfg st;
     bcch_bch_payload := bcch_bch_payload st;
     bcch_dlsch_payload := bcch_dlsch_payload st; ue_tx_buffer := ue_tx_buffer st;
     ue_rlc_buffer := ue_rlc_buffer st; ue_rx_pdu_queue := ue_rx_pdu_queue st;
     calls := c |}.

(** A call to a collaborator. *)
Definition emit (c : call) : M unit := modify (fun st => with_calls (calls st ++ [c]) st).

(** [std::vector::at] reads, and writes through the returned pointer. *)
Definition vec_at {A} (v : list A) (i : Z) : option A :=
  if (i <? 0) then None else nth_error v (Z.to_nat i).

Fixpoint list_set {A} (v : list A) (n : nat) (x : A) : list A :=
  match v, n with
  | [], _ => []
  | _ :: t, O => x :: t
  | h :: t, S n' => h :: list_set t n' x
  end.

Definition lift {A} (o : option A) : M A :=
  fun st => match o with Some a => Some (a, st) | None => None end.

(** [tx_request.pdus[tx_request.nof_pdus] = ...; tx_request.nof_pdus++]:
    the array is written at [nof_pdus] with no bound check. *)
Definition add_pdu (req : tx_request) (mib : bool) (r : buf_ref) (l : Z) : tx_request :=
  {| tx_tti := tx_tti req;
     pdus := pdus req ++ [{| mib_present := mib; data0 := r; pdu_length := l;
                              pdu_index := nof_pdus req |}] |}.

Definition set_tti (tti : Z) (req : tx_request) : tx_request :=
  {| tx_tti := tti; pdus := pdus req |}.

(* ------------------------------------------------------------------ *)
(** ** [mac_nr::get_dl_config] *)

(** "send MIB over BCH every 80ms". *)
Definition dl_config_bch (e : env) (tti : Z) (req : tx_request) : M tx_request :=
  if tti mod 80 =? 0 then
    emit (RrcReadPduBcchBch tti) ;;;
    match rrc_read_pdu_bcch_bch e tti with
    | Some p =>
      modify (with_bch p) ;;;
      ret (add_pdu req true BcchBchPayload (Z.of_nat (length p)))
    | None => ret req                    (* "Couldn't read BCH payload" *)
    end
  else ret req.

(** "Schedule SIBs": [k] is the position in [bcch_dlsch_payload];
    [tti % (sib.periodicity * 10)] is a 32-bit product, and a zero divisor
    is a division by zero. *)
Fixpoint dl_config_sibs (tti : Z) (k : nat) (l : list sib_info) (req : tx_request)
  : option tx_request :=
  match l with
  | [] => Some req
  | sib :: rest =>
    if 0 <? Z.of_nat (length (payload sib)) then
      let d := u32 (periodicity sib * 10) in
      if d =? 0 then None
      else if tti mod d =? 0 then
        dl_config_sibs tti (S k) rest
          (add_pdu req false (BcchDlschPayload k) (Z.of_nat (length (payload sib))))
      else dl_config_sibs tti (S k) rest req
    else dl_config_sibs tti (S k) rest req
  end.

(** The logical channel the padding branch reads from RLC. *)
Definition UE_LCID : Z := 4.

(** "Add MAC padding if TTI is empty". *)
Definition dl_config_padding (e : env) (tti : Z) (req : tx_request) : M tx_request :=
  if nof_pdus req =? 0 then
    let buffer_index := tti mod SRSRAN_FDD_NOF_HARQ in
    st <- get ;;
    _ <- lift (vec_at (ue_tx_buffer st) buffer_index) ;;
    modify (with_tx_buffer (list_set (ue_tx_buffer st) (Z.to_nat buffer_index) [])) ;;;
    let ue_tx_pdu := MacPdu.init_tx (tb_size (args st)) in
    modify (with_rlc_buffer []) ;;;
    let nof_bytes := u32 (tb_size (args st) - 2) in
    emit (RlcReadPdu (rnti (args st)) UE_LCID nof_bytes) ;;;
    let '(pdu_len, written) := rlc_read_pdu e (rnti (args st)) UE_LCID nof_bytes in
    if 0 <? pdu_len then
      let sdu := firstn (Z.to_nat pdu_len) written in
      modify (with_rlc_buffer sdu) ;;;
      let packed := MacPdu.pack (MacPdu.add_sdu ue_tx_pdu UE_LCID sdu) in
      st' <- get ;;
      modify (with_tx_buffer (list_set (ue_tx_buffer st') (Z.to_nat buffer_index) packed)) ;;;
      ret (add_pdu req false (UeTxBuffer buffer_index) (Z.of_nat (length packed)))
    else ret req
  else ret req.

Definition get_dl_config (e : env) (tti : Z) (config_request : dl_config_request)
    (tx_req : tx_request) : M (dl_config_request * tx_request) :=
  req1 <- dl_config_bch e tti tx_req ;;
  st <- get ;;
  req2 <- lift (dl_config_sibs tti 0 (bcch_dlsch_payload st) req1) ;;
  req3 <- dl_config_padding e tti req2 ;;
  ret ({| cfg_tti := tti |}, set_tti tti req3).

(* ------------------------------------------------------------------ *)
(** ** Entry points *)

Definition empty_tx_request : tx_request := {| tx_tti := 0; pdus := [] |}.

Definition slot_indication (e : env) (idx : Z) : M Z :=
  r <- get_dl_config e idx {| cfg_tti := 0 |} empty_tx_request ;;
  emit (PhyDlConfigRequest (fst r)) ;;;
  emit (PhyTxRequest (snd r)) ;;;
  ret SRSRAN_SUCCESS.

(** [rx_data.tb] is [None] for a null pointer. *)
Definition rx_data_indication (tb : option bytes) : M Z :=
  match tb with
  | Some b => modify (fun st => with_queue (ue_rx_pdu_queue st ++ [b]) st)
  | None => ret tt
  end ;;;
  emit StackProcessPdus ;;;
  ret SRSRAN_SUCCESS.

(** Loop over the sub-PDUs of [handle_pdu]: the body only logs, the call
    [rlc_h->write_pdu(...)] being commented out in the source. *)
Fixpoint handle_subpdus (l : list (Z * bytes)) : M unit :=
  match l with
  | [] => ret tt
  | _ :: rest => handle_subpdus rest
  end.

Definition handle_pdu (pdu : bytes) : M Z :=
  match MacPdu.unpack pdu with
  | None => ret SRSRAN_ERROR
  | Some subs => handle_subpdus subs ;;; ret SRSRAN_SUCCESS
  end.

(** [wait_pop] of the block queue; the loop only calls it on a non-empty
    queue (an empty one would block the single thread for ever). *)
Definition wait_pop : M bytes :=
  st <- get ;;
  match ue_rx_pdu_queue st with
  | [] => crash
  | x :: rest => modify (with_queue rest) ;;; ret x
  end.

Fixpoint process_pdus_loop (fuel : nat) : M unit :=
  match fuel with
  | O => ret tt
  | S fuel' =>
    st <- get ;;
    if started st && negb (match ue_rx_pdu_queue st with [] => true | _ => false end)
    then
      pdu <- wait_pop ;;
      handle_pdu pdu ;;;
      process_pdus_loop fuel'
    else ret tt
  end.

(** Each iteration pops one item and nothing is pushed meanwhile, so the
    length of the queue bounds the loop. *)
Definition process_pdus : M unit :=
  fun st => process_pdus_loop (length (ue_rx_pdu_queue st)) st.

(** "read SIBs from RRC (SIB1 for now only)". *)
Fixpoint cell_cfg_loop (e : env) (c : cell_cfg_t) (i : Z) (n : nat) : M unit :=
  match n with
  | O => ret tt
  | S n' =>
    (if 0 <? len (sibs0 c) then
       if negb (make_byte_buffer_ok e) then crash
       else
         emit (RrcReadPduBcchDlsch i) ;;;
         let p := match rrc_read_pdu_bcch_dlsch e i with Some p => p | None => [] end in
         modify (fun st => with_sibs (bcch_dlsch_payload st ++
                   [{| index := i; periodicity := period_rf (sibs0 c); payload := p |}]) st)
     else ret tt) ;;;
    cell_cfg_loop e c (i + 1) n'
  end.

Definition cell_cfg (e : env) (c : cell_cfg_t) : M Z :=
  modify (with_cfg c) ;;;
  cell_cfg_loop e c 0 (Z.to_nat MAX_SIBS) ;;;
  ret SRSRAN_SUCCESS.

Fixpoint alloc_tx_buffers (e : env) (n : nat) : M bool :=
  match n with
  | O => ret true
  | S n' =>
    if make_byte_buffer_ok e then
      modify (fun st => with_tx_buffer (ue_tx_buffer st ++ [[]]) st) ;;;
      alloc_tx_buffers e n'
    else ret false
  end.

Definition init (e : env) (a : mac_nr_args_t) : M Z :=
  modify (with_args a) ;;;
  if negb (make_byte_buffer_ok e) then ret SRSRAN_ERROR
  else
    modify (with_bch []) ;;;
    ok <- alloc_tx_buffers e (Z.to_nat SRSRAN_FDD_NOF_HARQ) ;;
    if negb ok then ret SRSRAN_ERROR
    else
      modify (with_rlc_buffer []) ;;;
      modify (with_started true) ;;;
      ret SRSRAN_SUCCESS.

Definition stop : M unit :=
  st <- get ;;
  if started st then modify (with_started false) else ret tt.

(** The remaining methods of [mac_nr]: [get_metrics] has an empty body,
    and the four scheduler stubs only [return 0]. *)
Definition get_metrics : M unit := ret tt.
Definition get_dl_sched (slot_idx : Z) : M Z := ret 0.
Definition get_ul_sched (slot_idx : Z) : M Z := ret 0.
Definition pucch_info (slot_idx : Z) : M Z := ret 0.
Definition pusch_info (slot_idx : Z) : M Z := ret 0.

(** A freshly constructed [mac_nr]. *)
Definition mac_nr_new : mac_nr :=
  {| started := false; args := {| rnti := 0; tb_size := 0 |}; cfg := {| sibs := [] |};
     bcch_bch_payload := []; bcch_dlsch_payload := []; ue_tx_buffer := [];
     ue_rlc_buffer := []; ue_rx_pdu_queue := []; calls := [] |}.

(** Running an operation: its result and the state after it. *)
Definition run {A} (m : M A) (st : mac_nr) : option (A * mac_nr) := m st.

(* ================================================================== *)
(** * Properties *)

(** ** Codec *)

Module MacPduFacts.
Import MacPdu.

(** A sub-PDU the sub-header can express: a data LCID (6 bits, not the
    padding LCID) and an SDU length within the 16-bit L field. *)
Definition wf_subpdu (x : Z * bytes) : Prop :=
  0 <= fst x < PADDING /\ Z.of_nat (length (snd x)) < 65536.

(** Serialized size of a list of sub-PDUs. *)
Definition total_size (l : list (Z * bytes)) : Z :=
  fold_right (fun '(_, sdu) acc =>
    size_header_sdu (Z.of_nat (length sdu)) + Z.of_nat (length sdu) + acc) 0 l.

Lemma total_size_nonneg : forall l, 0 <= total_size l.
Proof.
  induction l as [|[lcid sdu] l IH]; simpl; [lia|].
  unfold size_header_sdu; destruct (_ <? 256); lia.
Qed.

Lemma fold_add_sdu_fits : forall l p,
  Forall wf_subpdu l -> total_size l <= remaining_len p ->
  subpdus (fold_left (fun p '(lcid, sdu) => add_sdu p lcid sdu) l p) = subpdus p ++ l.
Proof.
  induction l as [|[lcid sdu] l IH]; intros p Hwf Hsz; simpl.
  - now rewrite app_nil_r.
  - inversion Hwf as [|? ? [Hl Hn] Hwf']; subst; simpl in *.
    pose proof (total_size_nonneg l) as Hnn.
    unfold add_sdu at 2.
    replace ((remaining_len p <? size_header_sdu (Z.of_nat (length sdu)) + Z.of_nat (length sdu))
             || (65536 <=? Z.of_nat (length sdu))) with false
      by (symmetry; apply orb_false_iff; split; [apply Z.ltb_ge | apply Z.leb_gt]; lia).
    rewrite IH by (auto; simpl; lia). simpl. now rewrite <- app_assoc.
Qed.

Lemma land_63_small : forall z, 0 <= z < 64 -> Z.land z 63 = z.
Proof.
  intros z Hz. change 63 with (Z.ones 6). rewrite Z.land_ones by lia.
  apply Z.mod_small. change (2 ^ 6) with 64. lia.
Qed.

Lemma testbit6_small : forall z, 0 <= z < 64 -> Z.testbit z 6 = false.
Proof.
  intros z Hz. pose proof (Z.testbit_spec' z 6 ltac:(lia)) as H.
  rewrite Z.div_small in H by (change (2 ^ 6) with 64; lia).
  destruct (Z.testbit z 6); simpl in H; [discriminate | reflexivity].
Qed.

Lemma split_len : forall n, 0 <= n -> Z.shiftr n 8 * 256 + Z.land n 255 = n.
Proof.
  intros n Hn. rewrite Z.shiftr_div_pow2 by lia.
  change 255 with (Z.ones 8). rewrite Z.land_ones by lia.
  change (2 ^ 8) with 256. pose proof (Z.div_mod n 256). lia.
Qed.

Lemma unpack_fuel_pack : forall l fuel,
  Forall wf_subpdu l ->
  (length (pack {| remaining_len := 0; subpdus := l |}) <= fuel)%nat ->
  unpack_fuel fuel (pack {| remaining_len := 0; subpdus := l |}) = Some l.
Proof.
  unfold pack; simpl.
  induction l as [|[lcid sdu] l IH]; intros fuel Hwf Hfuel; simpl in *.
  - destruct fuel; reflexivity.
  - inversion Hwf as [|? ? [Hl Hn] Hwf']; subst; simpl in *.
    unfold PADDING in Hl.
    set (n := Z.of_nat (length sdu)) in *.
    set (rest := flat_map (fun '(lcid, sdu) =>
      write_subheader lcid (Z.of_nat (length sdu)) ++ sdu) l) in *.
    unfold write_subheader in *.
    destruct (n <? 256) eqn:Hsmall.
    + destruct fuel as [|fuel]; [simpl in Hfuel; lia|].
      cbn [unpack_fuel app]. rewrite land_63_small by lia.
      replace (lcid =? PADDING) with false by (symmetry; apply Z.eqb_neq; unfold PADDING; lia).
      rewrite testbit6_small by lia.
      rewrite length_app.
      replace (Z.of_nat (length sdu + length rest) <? n) with false
        by (symmetry; apply Z.ltb_ge; unfold n; lia).
      unfold n; rewrite Nat2Z.id, skipn_app, firstn_app, Nat.sub_diag, skipn_all,
        firstn_all, firstn_O, app_nil_r; simpl.
      rewrite IH; auto. simpl in Hfuel. rewrite length_app in Hfuel. lia.
    + apply Z.ltb_ge in Hsmall.
      destruct fuel as [|fuel]; [simpl in Hfuel; lia|].
      cbn [unpack_fuel app]. rewrite Z.land_lor_distr_l.
      replace (Z.land 64 63) with 0 by reflexivity.
      rewrite Z.lor_0_l, land_63_small by lia.
      replace (lcid =? PADDING) with false by (symmetry; apply Z.eqb_neq; unfold PADDING; lia).
      rewrite Z.lor_spec. simpl Z.testbit at 1. simpl orb.
      rewrite split_len by (unfold n; lia).
      rewrite length_app.
      replace (Z.of_nat (length sdu + length rest) <? n) with false
        by (symmetry; apply Z.ltb_ge; unfold n; lia).
      unfold n; rewrite Nat2Z.id, skipn_app, firstn_app, Nat.sub_diag, skipn_all,
        firstn_all, firstn_O, app_nil_r; simpl.
      rewrite IH; auto. simpl in Hfuel. rewrite length_app in Hfuel. lia.
Qed.

Lemma pack_subpdus : forall p, pack p = pack {| remaining_len := 0; subpdus := subpdus p |}.
Proof. reflexivity. Qed.

End MacPduFacts.

(** ** Monad and state helpers *)

Ltac unfold_m :=
  unfold run, emit, bind, ret, get, put, modify, lift, crash in *.

Lemma with_queue_same : forall st, with_queue (ue_rx_pdu_queue st) st = st.
Proof. destruct st; reflexivity. Qed.

Lemma with_queue_twice : forall q q' st, with_queue q (with_queue q' st) = with_queue q st.
Proof. destruct st; reflexivity. Qed.

(** ** Uplink drain loop *)

Lemma handle_subpdus_id : forall l st, handle_subpdus l st = Some (tt, st).
Proof. induction l; simpl; auto. Qed.

Lemma handle_pdu_id : forall pdu st,
  handle_pdu pdu st =
  Some (match MacPdu.unpack pdu with Some _ => SRSRAN_SUCCESS | None => SRSRAN_ERROR end, st).
Proof.
  intros pdu st. unfold handle_pdu.
  destruct (MacPdu.unpack pdu); unfold_m; [rewrite handle_subpdus_id|]; reflexivity.
Qed.

Lemma process_pdus_loop_drains : forall fuel st,
  (length (ue_rx_pdu_queue st) <= fuel)%nat ->
  process_pdus_loop fuel st =
  Some (tt, with_queue (if started st then [] else ue_rx_pdu_queue st) st).
Proof.
  induction fuel as [|fuel IH]; intros st Hlen.
  - destruct (ue_rx_pdu_queue st) eqn:Hq; [|simpl in Hlen; lia].
    simpl. destruct (started st); rewrite <- Hq; rewrite with_queue_same; reflexivity.
  - cbn [process_pdus_loop]. unfold_m.
    destruct (started st) eqn:Hs; simpl.
    + destruct (ue_rx_pdu_queue st) as [|x rest] eqn:Hq; simpl.
      * rewrite <- Hq, with_queue_same; reflexivity.
      * unfold wait_pop; unfold_m. rewrite Hq. rewrite handle_pdu_id.
        rewrite IH by (destruct st; simpl in *; subst; simpl in Hlen; lia).
        destruct st; simpl in *; rewrite Hs; reflexivity.
    + rewrite with_queue_same; reflexivity.
Qed.

Lemma process_pdus_drains : forall st,
  process_pdus st =
  Some (tt, with_queue (if started st then [] else ue_rx_pdu_queue st) st).
Proof. intros st. apply process_pdus_loop_drains. lia. Qed.

(** One iteration of the loop of [process_pdus]: the buffer handled, if any. *)
Definition drain_step : M (option bytes) :=
  st <- get ;;
  if started st && negb (match ue_rx_pdu_queue st with [] => true | _ => false end)
  then pdu <- wait_pop ;; handle_pdu pdu ;;; ret (Some pdu)
  else ret None.

Lemma process_pdus_loop_unfold : forall fuel st,
  process_pdus_loop (S fuel) st =
  match drain_step st with
  | Some (Some _, st') => process_pdus_loop fuel st'
  | Some (None, st') => Some (tt, st')
  | None => None
  end.
Proof.
  intros fuel st. cbn [process_pdus_loop]. unfold drain_step. unfold_m.
  destruct (started st && _); [|reflexivity].
  unfold wait_pop; unfold_m.
  destruct (ue_rx_pdu_queue st); [reflexivity|].
  rewrite handle_pdu_id. reflexivity.
Qed.

(** The producer ([rx_data_indication] with a buffer) and the consumer
    (one iteration of the drain loop) interleaved in any order. *)
Inductive actor_step := Produce (b : bytes) | Consume.

Fixpoint run_schedule (l : list actor_step) : M (list bytes) :=
  match l with
  | [] => ret []
  | Produce b :: rest => rx_data_indication (Some b) ;;; run_schedule rest
  | Consume :: rest =>
    o <- drain_step ;;
    got <- run_schedule rest ;;
    ret (match o with Some b => b :: got | None => got end)
  end.

Definition pushed (l : list actor_step) : list bytes :=
  flat_map (fun s => match s with Produce b => [b] | Consume => [] end) l.

Lemma run_schedule_app : forall l1 l2 st,
  run_schedule (l1 ++ l2) st =
  match run_schedule l1 st with
  | Some (g1, s1) =>
    match run_schedule l2 s1 with Some (g2, s2) => Some (g1 ++ g2, s2) | None => None end
  | None => None
  end.
Proof.
  induction l1 as [|[b|] l1 IH]; intros l2 st; simpl.
  - unfold_m. destruct (run_schedule l2 st) as [[g s]|]; reflexivity.
  - unfold rx_data_indication; unfold_m. apply IH.
  - unfold_m. destruct (drain_step st) as [[o s1]|]; [|reflexivity].
    rewrite IH.
    destruct (run_schedule l1 s1) as [[g1 s2]|]; [|reflexivity].
    destruct (run_schedule l2 s2) as [[g2 s3]|]; [|reflexivity].
    destruct o; reflexivity.
Qed.

Lemma run_schedule_fifo : forall l st,
  started st = true ->
  exists got st', run_schedule l st = Some (got, st') /\ started st' = true /\
    got ++ ue_rx_pdu_queue st' = ue_rx_pdu_queue st ++ pushed l.
Proof.
  induction l as [|[b|] l IH]; intros st Hs.
  - exists [], st. simpl. rewrite app_nil_r. auto.
  - simpl. unfold rx_data_indication; unfold_m. simpl.
    edestruct IH as (got & st' & Hrun & Hs' & Heq); [|rewrite Hrun; exists got, st'].
    + destruct st; simpl in *; auto.
    + split; [reflexivity|split; auto]. rewrite Heq. destruct st; simpl.
      now rewrite <- app_assoc.
  - simpl. unfold drain_step; unfold_m. rewrite Hs. simpl.
    destruct (ue_rx_pdu_queue st) as [|x rest] eqn:Hq; simpl.
    + destruct (IH st Hs) as (got & st' & Hrun & Hs' & Heq).
      rewrite Hrun. exists got, st'. rewrite Hq in Heq. auto.
    + unfold wait_pop; unfold_m. rewrite Hq. rewrite handle_pdu_id.
      destruct (IH (with_queue rest st)) as (got & st' & Hrun & Hs' & Heq);
        [destruct st; simpl in *; auto|].
      rewrite Hrun. exists (x :: got), st'. split; [reflexivity|split; auto].
      simpl. rewrite Heq. destruct st; simpl in *; subst; reflexivity.
Qed.

Lemma run_schedule_drain : forall n st,
  started st = true -> (length (ue_rx_pdu_queue st) <= n)%nat ->
  exists st', run_schedule (repeat Consume n) st = Some (ue_rx_pdu_queue st, st') /\
              ue_rx_pdu_queue st' = [].
Proof.
  induction n as [|n IH]; intros st Hs Hlen.
  - destruct (ue_rx_pdu_queue st) eqn:Hq; [|simpl in Hlen; lia].
    exists st. simpl. unfold_m. auto.
  - simpl. unfold drain_step; unfold_m. rewrite Hs. simpl.
    destruct (ue_rx_pdu_queue st) as [|x rest] eqn:Hq; simpl.
    + destruct (IH st Hs) as (st' & Hrun & Hq'); [rewrite Hq; simpl; lia|].
      rewrite Hrun, Hq. eauto.
    + unfold wait_pop; unfold_m. rewrite Hq. rewrite handle_pdu_id.
      destruct (IH (with_queue rest st)) as (st' & Hrun & Hq');
        [destruct st; simpl in *; auto|destruct st; simpl in *; subst; simpl in Hlen; lia|].
      rewrite Hrun. exists st'. split; auto.
Qed.

(** ** Cell configuration *)

Fixpoint zseq (i : Z) (n : nat) : list Z :=
  match n with O => [] | S n' => i :: zseq (i + 1) n' end.

(** The entry [cell_cfg] caches for SIB [i]. *)
Definition cached_sib (e : env) (c : cell_cfg_t) (i : Z) : sib_info :=
  {| index := i; periodicity := period_rf (sibs0 c);
     payload := match rrc_read_pdu_bcch_dlsch e i with Some p => p | None => [] end |}.

Lemma cell_cfg_loop_spec : forall e c n i st,
  make_byte_buffer_ok e = true ->
  exists st', cell_cfg_loop e c i n st = Some (tt, st') /\
    bcch_dlsch_payload st' = bcch_dlsch_payload st ++
      (if 0 <? len (sibs0 c) then map (cached_sib e c) (zseq i n) else []).
Proof.
  intros e c n. induction n as [|n IH]; intros i st Hok.
  - exists st. simpl. destruct (0 <? len (sibs0 c)); rewrite app_nil_r; auto.
  - cbn [cell_cfg_loop zseq]. rewrite Hok. simpl negb. cbv iota.
    destruct (0 <? len (sibs0 c)) eqn:Hlen; unfold_m; simpl.
    + edestruct IH as (st' & Hrun & Hsibs); [exact Hok|].
      rewrite Hrun. exists st'. split; [reflexivity|].
      rewrite Hsibs. destruct st; simpl. rewrite <- app_assoc. reflexivity.
    + edestruct (IH (i + 1) st) as (st' & Hrun & Hsibs); [exact Hok|].
      rewrite Hrun. exists st'. split; [reflexivity|]. rewrite Hsibs. reflexivity.
Qed.

(** ** Downlink assembly *)

(** Every descriptor's [index] is its position. *)
Definition indexed (req : tx_request) : Prop :=
  forall i d, nth_error (pdus req) i = Some d -> pdu_index d = Z.of_nat i.

Lemma add_pdu_indexed : forall req m r l, indexed req -> indexed (add_pdu req m r l).
Proof.
  unfold indexed, add_pdu, nof_pdus; simpl. intros req m r l H i d Hd.
  destruct (Nat.lt_ge_cases i (length (pdus req))) as [Hlt|Hge].
  - rewrite nth_error_app1 in Hd by exact Hlt. auto.
  - rewrite nth_error_app2 in Hd by exact Hge.
    destruct (i - length (pdus req))%nat eqn:Hi; simpl in Hd; [|destruct n; discriminate].
    inversion Hd; subst; simpl. f_equal. lia.
Qed.

(** No division by zero in the SIB loop. *)
Definition sibs_divisible (l : list sib_info) : Prop :=
  Forall (fun sib => 0 < Z.of_nat (length (payload sib)) -> u32 (periodicity sib * 10) <> 0) l.

(** A SIB entry due at [tti]. *)
Definition sib_due (tti : Z) (sib : sib_info) : bool :=
  (0 <? Z.of_nat (length (payload sib))) && (tti mod u32 (periodicity sib * 10) =? 0).

Definition is_sib_ref (r : buf_ref) : Prop :=
  match r with BcchDlschPayload _ => True | _ => False end.

Lemma dl_config_sibs_spec : forall tti l k req,
  sibs_divisible l -> indexed req ->
  exists ds, dl_config_sibs tti k l req = Some {| tx_tti := tx_tti req; pdus := pdus req ++ ds |} /\
    indexed {| tx_tti := tx_tti req; pdus := pdus req ++ ds |} /\
    Forall (fun d => mib_present d = false /\ is_sib_ref (data0 d)) ds /\
    length ds = length (filter (sib_due tti) l) /\
    (forall x, (In (BcchDlschPayload x) (map data0 ds) -> k <= x)%nat) /\
    (forall j, In (BcchDlschPayload (k + j)) (map data0 ds) <->
       exists sib, nth_error l j = Some sib /\ sib_due tti sib = true).
Proof.
  induction l as [|sib l IH]; intros k req Hdiv Hidx.
  - exists []. rewrite app_nil_r. destruct req; simpl.
    repeat split; auto; try contradiction.
    intros [sib [Hn _]]. destruct j; discriminate.
  - inversion Hdiv as [|? ? Hd Hdiv']; subst. cbn [dl_config_sibs].
    destruct (0 <? Z.of_nat (length (payload sib))) eqn:Hp.
    + assert (Hnz : (u32 (periodicity sib * 10) =? 0) = false)
        by (apply Z.eqb_neq; apply Hd; apply Z.ltb_lt; exact Hp).
      rewrite Hnz.
      destruct (tti mod u32 (periodicity sib * 10) =? 0) eqn:Hm.
      * assert (Hdue : sib_due tti sib = true)
          by (unfold sib_due; rewrite Hp, Hm; reflexivity).
        destruct (IH (S k) (add_pdu req false (BcchDlschPayload k)
                       (Z.of_nat (length (payload sib)))) Hdiv' (add_pdu_indexed _ _ _ _ Hidx))
          as (ds & Hrun & Hidx' & Hf & Hlen & Hge & Hin).
        rewrite Hrun. unfold add_pdu in *. simpl in *.
        eexists. rewrite <- app_assoc. split; [reflexivity|].
        split; [rewrite <- app_assoc in Hidx'; exact Hidx'|].
        split; [constructor; simpl; auto|].
        split; [simpl; rewrite Hdue; simpl; rewrite Hlen; reflexivity|].
        split.
        { intros x [Hx|Hx]; [inversion Hx; lia|apply Hge in Hx; lia]. }
        intros j. simpl. destruct j as [|j].
        -- rewrite Nat.add_0_r. split; [intros _; exists sib; auto|].
           intros _; left; reflexivity.
        -- replace (k + S j)%nat with (S k + j)%nat by lia. simpl nth_error. rewrite <- Hin.
           split; [intros [H|H]; [inversion H; lia|exact H]|intros H; right; exact H].
      * assert (Hdue : sib_due tti sib = false)
          by (unfold sib_due; rewrite Hp, Hm; reflexivity).
        destruct (IH (S k) req Hdiv' Hidx) as (ds & Hrun & Hidx' & Hf & Hlen & Hge & Hin).
        rewrite Hrun. exists ds. split; [reflexivity|]. split; [exact Hidx'|].
        split; [exact Hf|]. split; [simpl; rewrite Hdue; exact Hlen|].
        split; [intros x Hx; apply Hge in Hx; lia|].
        intros j. split.
        { intros H. destruct j as [|j].
          - apply Hge in H. lia.
          - replace (k + S j)%nat with (S k + j)%nat in H by lia. apply Hin in H. exact H. }
        { intros H. destruct j as [|j].
          - destruct H as [sib' [Hs Hdue']]. simpl in Hs. inversion Hs; subst. congruence.
          - replace (k + S j)%nat with (S k + j)%nat by lia. apply Hin. exact H. }
    + assert (Hdue : sib_due tti sib = false)
        by (unfold sib_due; rewrite Hp; reflexivity).
      destruct (IH (S k) req Hdiv' Hidx) as (ds & Hrun & Hidx' & Hf & Hlen & Hge & Hin).
      rewrite Hrun. exists ds. split; [reflexivity|]. split; [exact Hidx'|].
      split; [exact Hf|]. split; [simpl; rewrite Hdue; exact Hlen|].
      split; [intros x Hx; apply Hge in Hx; lia|].
      intros j. split.
      { intros H. destruct j as [|j].
        - apply Hge in H. lia.
        - replace (k + S j)%nat with (S k + j)%nat in H by lia. apply Hin in H. exact H. }
      { intros H. destruct j as [|j].
        - destruct H as [sib' [Hs Hdue']]. simpl in Hs. inversion Hs; subst. congruence.
        - replace (k + S j)%nat with (S k + j)%nat by lia. apply Hin. exact H. }
Qed.

Lemma list_set_length : forall {A} (v : list A) n x, length (list_set v n x) = length v.
Proof. induction v; destruct n; simpl; auto. Qed.

Lemma list_set_nth : forall {A} (v : list A) n x,
  (n < length v)%nat -> nth_error (list_set v n x) n = Some x.
Proof. induction v; destruct n; simpl; intros; auto; try lia. apply IHv. lia. Qed.

(** The descriptor the MIB step appends, when it appends one. *)
Definition mib_pdus (e : env) (tti : Z) : list tx_request_pdu :=
  if tti mod 80 =? 0 then
    match rrc_read_pdu_bcch_bch e tti with
    | Some p => [{| mib_present := true; data0 := BcchBchPayload;
                    pdu_length := Z.of_nat (length p); pdu_index := 0 |}]
    | None => []
    end
  else [].

Lemma dl_config_bch_spec : forall e tti st,
  exists st0,
    dl_config_bch e tti empty_tx_request st = Some ({| tx_tti := 0; pdus := mib_pdus e tti |}, st0) /\
    args st0 = args st /\ bcch_dlsch_payload st0 = bcch_dlsch_payload st /\
    ue_tx_buffer st0 = ue_tx_buffer st /\ started st0 = started st /\
    (forall p, tti mod 80 = 0 -> rrc_read_pdu_bcch_bch e tti = Some p -> bcch_bch_payload st0 = p).
Proof.
  intros e tti st. unfold dl_config_bch, mib_pdus.
  destruct (tti mod 80 =? 0) eqn:H80.
  - destruct (rrc_read_pdu_bcch_bch e tti) as [p|] eqn:Hr; unfold_m; simpl; eexists;
      (split; [reflexivity|]); destruct st; simpl; repeat split; auto; congruence.
  - unfold_m. eexists. split; [reflexivity|]. repeat split; auto.
    intros p H. apply Z.eqb_neq in H80. contradiction.
Qed.

(** The unicast MAC PDU the padding step builds from [pdu_len] and the
    bytes RLC wrote. *)
Definition padding_pdu (tb : Z) (pdu_len : Z) (written : bytes) : bytes :=
  MacPdu.pack (MacPdu.add_sdu (MacPdu.init_tx tb) UE_LCID (firstn (Z.to_nat pdu_len) written)).

Lemma dl_config_padding_nonempty : forall e tti req st,
  pdus req <> [] -> dl_config_padding e tti req st = Some (req, st).
Proof.
  intros e tti req st H. unfold dl_config_padding, nof_pdus.
  destruct (pdus req); [congruence|]. simpl. unfold_m. reflexivity.
Qed.

Lemma dl_config_padding_empty : forall e tti req st,
  pdus req = [] -> 0 <= tti -> (8 <= length (ue_tx_buffer st))%nat ->
  let nb := u32 (tb_size (args st) - 2) in
  let '(pdu_len, written) := rlc_read_pdu e (rnti (args st)) UE_LCID nb in
  let packed := padding_pdu (tb_size (args st)) pdu_len written in
  exists st1,
    dl_config_padding e tti req st =
      Some (if 0 <? pdu_len
            then add_pdu req false (UeTxBuffer (tti mod SRSRAN_FDD_NOF_HARQ))
                   (Z.of_nat (length packed))
            else req, st1) /\
    calls st1 = calls st ++ [RlcReadPdu (rnti (args st)) UE_LCID nb] /\
    vec_at (ue_tx_buffer st1) (tti mod SRSRAN_FDD_NOF_HARQ) =
      Some (if 0 <? pdu_len then packed else []) /\
    length (ue_tx_buffer st1) = length (ue_tx_buffer st) /\
    args st1 = args st /\ bcch_dlsch_payload st1 = bcch_dlsch_payload st /\
    bcch_bch_payload st1 = bcch_bch_payload st.
Proof.
  intros e tti req st Hreq Htti Hpool.
  destruct (rlc_read_pdu e (rnti (args st)) UE_LCID (u32 (tb_size (args st) - 2)))
    as [pdu_len written] eqn:Hrlc. simpl.
  unfold SRSRAN_FDD_NOF_HARQ in *.
  assert (Hm : 0 <= tti mod 8 < 8) by (apply Z.mod_pos_bound; lia).
  assert (Hlt : (Z.to_nat (tti mod 8) < length (ue_tx_buffer st))%nat) by lia.
  unfold dl_config_padding, nof_pdus. rewrite Hreq. simpl. unfold SRSRAN_FDD_NOF_HARQ.
  unfold_m.
  unfold vec_at at 1. replace (tti mod 8 <? 0) with false by (symmetry; apply Z.ltb_ge; lia).
  destruct (nth_error (ue_tx_buffer st) (Z.to_nat (tti mod 8))) eqn:Hnth;
    [|apply nth_error_None in Hnth; lia].
  cbn. rewrite Hrlc.
  destruct (0 <? pdu_len) eqn:Hpos; simpl.
  - eexists. split; [reflexivity|].
    destruct st; simpl in *. repeat split; auto.
    + unfold vec_at. replace (tti mod 8 <? 0) with false by (symmetry; apply Z.ltb_ge; lia).
      rewrite list_set_nth; [reflexivity|]. rewrite list_set_length. exact Hlt.
    + rewrite !list_set_length. reflexivity.
  - eexists. split; [reflexivity|].
    destruct st; simpl in *. repeat split; auto.
    + unfold vec_at. replace (tti mod 8 <? 0) with false by (symmetry; apply Z.ltb_ge; lia).
      rewrite list_set_nth; [reflexivity|]. exact Hlt.
    + rewrite !list_set_length. reflexivity.
Qed.

(** A slot the assembler runs to completion on: an unsigned slot index,
    the eight HARQ buffers [init] allocates, and no non-empty SIB whose
    period makes [tti % (periodicity * 10)] a division by zero. *)
Definition slot_ok (st : mac_nr) (s : Z) : Prop :=
  0 <= s /\ (8 <= length (ue_tx_buffer st))%nat /\ sibs_divisible (bcch_dlsch_payload st).

Lemma get_dl_config_spec : forall e s st c0,
  slot_ok st s ->
  exists ds st0 req3 st1,
    dl_config_padding e s {| tx_tti := 0; pdus := mib_pdus e s ++ ds |} st0 = Some (req3, st1) /\
    get_dl_config e s c0 empty_tx_request st =
      Some (({| cfg_tti := s |}, set_tti s req3), st1) /\
    indexed {| tx_tti := 0; pdus := mib_pdus e s ++ ds |} /\
    Forall (fun d => mib_present d = false /\ is_sib_ref (data0 d)) ds /\
    length ds = length (filter (sib_due s) (bcch_dlsch_payload st)) /\
    (forall j, In (BcchDlschPayload j) (map data0 ds) <->
       exists sib, nth_error (bcch_dlsch_payload st) j = Some sib /\ sib_due s sib = true) /\
    args st0 = args st /\ bcch_dlsch_payload st0 = bcch_dlsch_payload st /\
    ue_tx_buffer st0 = ue_tx_buffer st /\
    (forall p, s mod 80 = 0 -> rrc_read_pdu_bcch_bch e s = Some p -> bcch_bch_payload st0 = p).
Proof.
  intros e s st c0 (Hs & Hpool & Hdiv).
  destruct (dl_config_bch_spec e s st) as (st0 & Hbch & Ha & Hsb & Htx & Hst & Hp).
  assert (Hidx : indexed {| tx_tti := 0; pdus := mib_pdus e s |}).
  { unfold indexed, mib_pdus. simpl. intros i d.
    destruct (s mod 80 =? 0), (rrc_read_pdu_bcch_bch e s);
      destruct i as [|[|i]]; simpl; intros H; inversion H; reflexivity. }
  destruct (dl_config_sibs_spec s (bcch_dlsch_payload st) 0 _ Hdiv Hidx)
    as (ds & Hsibs & Hidx' & Hf & Hlen & _ & Hin).
  simpl in Hsibs, Hidx'.
  destruct (dl_config_padding e s {| tx_tti := 0; pdus := mib_pdus e s ++ ds |} st0)
    as [[req3 st1]|] eqn:Hpad.
  - exists ds, st0, req3, st1. split; [exact Hpad|].
    split.
    + unfold get_dl_config. unfold_m. rewrite Hbch. rewrite Hsb, Hsibs, Hpad. reflexivity.
    + repeat split; auto; intros H; apply (Hin j); auto.
  - exfalso.
    destruct (mib_pdus e s ++ ds) eqn:Hnil.
    + pose proof (dl_config_padding_empty e s {| tx_tti := 0; pdus := [] |} st0
                    eq_refl Hs ltac:(rewrite Htx; exact Hpool)) as Hp'.
      cbv zeta in Hp'.
      destruct (rlc_read_pdu e _ _ _) as [pl w]. destruct Hp' as (st1 & Hr & _).
      congruence.
    + rewrite dl_config_padding_nonempty in Hpad by (simpl; congruence). discriminate.
Qed.

Lemma slot_indication_spec : forall e s st,
  slot_indication e s st =
  match get_dl_config e s {| cfg_tti := 0 |} empty_tx_request st with
  | Some ((c, req), st1) =>
    Some (SRSRAN_SUCCESS,
          with_calls (calls st1 ++ [PhyDlConfigRequest c; PhyTxRequest req]) st1)
  | None => None
  end.
Proof.
  intros e s st. unfold slot_indication. unfold_m.
  destruct (get_dl_config e s _ _ st) as [[[c req] st1]|]; [|reflexivity].
  simpl. destruct st1; simpl. rewrite <- app_assoc. reflexivity.
Qed.

Definition is_tx_ref (r : buf_ref) : Prop :=
  match r with UeTxBuffer _ => True | _ => False end.

Lemma dl_config_padding_shape : forall e tti req st req3 st1,
  dl_config_padding e tti req st = Some (req3, st1) ->
  exists l2, pdus req3 = pdus req ++ l2 /\
    Forall (fun d => mib_present d = false /\ is_tx_ref (data0 d)) l2 /\
    (length l2 <= 1)%nat /\ (l2 <> [] -> pdus req = []) /\
    (indexed req -> indexed req3) /\
    bcch_bch_payload st1 = bcch_bch_payload st /\
    bcch_dlsch_payload st1 = bcch_dlsch_payload st.
Proof.
  intros e tti req st req3 st1 H. unfold dl_config_padding in H.
  destruct (nof_pdus req =? 0) eqn:Hn.
  - assert (Hnil : pdus req = []).
    { unfold nof_pdus in Hn. apply Z.eqb_eq in Hn. destruct (pdus req); simpl in Hn; [auto|lia]. }
    unfold_m. destruct (vec_at _ _); [|discriminate]. cbn in H.
    destruct (rlc_read_pdu e _ _ _) as [pl w].
    destruct (0 <? pl); inversion H; subst; clear H.
    + eexists. split; [reflexivity|]. split; [constructor; simpl; auto|].
      split; [simpl; lia|]. split; [intros _; exact Hnil|].
      split; [apply add_pdu_indexed|]. destruct st; simpl; auto.
    + exists []. rewrite app_nil_r.
      repeat split; auto; try congruence; try (destruct st; reflexivity).
  - unfold_m. inversion H; subst. exists []. rewrite app_nil_r.
    repeat split; auto; congruence.
Qed.

Lemma in_mib_pdus : forall e s d, In d (mib_pdus e s) ->
  mib_present d = true /\ data0 d = BcchBchPayload.
Proof.
  intros e s d. unfold mib_pdus.
  destruct (s mod 80 =? 0), (rrc_read_pdu_bcch_bch e s); simpl; try tauto.
  intros [H|[]]. subst. auto.
Qed.

Lemma filter_repeat_due : forall tti sib n, sib_due tti sib = true ->
  length (filter (sib_due tti) (repeat sib n)) = n.
Proof. intros tti sib n H. induction n; simpl; [reflexivity|]. rewrite H. simpl. auto. Qed.

(** ** The [started] flag *)

(** An outcome with the [started] flag of its final state overwritten. *)
Definition with_started_res {A} (b : bool) (r : option (A * mac_nr)) :=
  match r with Some (a, st') => Some (a, with_started b st') | None => None end.

Lemma dl_config_bch_started : forall e tti req st b,
  dl_config_bch e tti req (with_started b st) = with_started_res b (dl_config_bch e tti req st).
Proof.
  intros. unfold dl_config_bch.
  destruct (tti mod 80 =? 0); [destruct (rrc_read_pdu_bcch_bch e tti)|]; unfold_m;
    destruct st; reflexivity.
Qed.

Lemma dl_config_padding_started : forall e tti req st b,
  dl_config_padding e tti req (with_started b st) =
  with_started_res b (dl_config_padding e tti req st).
Proof.
  intros. unfold dl_config_padding.
  destruct (nof_pdus req =? 0); unfold_m; [|destruct st; reflexivity].
  destruct st; simpl.
  destruct (vec_at ue_tx_buffer0 (tti mod SRSRAN_FDD_NOF_HARQ)); [|reflexivity].
  simpl. destruct (rlc_read_pdu e _ _ _) as [pl w].
  destruct (0 <? pl); reflexivity.
Qed.

Lemma get_dl_config_started : forall e s c0 r0 st b,
  get_dl_config e s c0 r0 (with_started b st) =
  with_started_res b (get_dl_config e s c0 r0 st).
Proof.
  intros. unfold get_dl_config. unfold_m.
  rewrite dl_config_bch_started.
  destruct (dl_config_bch e s r0 st) as [[r1 st0]|]; [|reflexivity]. simpl.
  destruct (dl_config_sibs s 0 (bcch_dlsch_payload st0) r1) as [r2|]; [|reflexivity].
  rewrite dl_config_padding_started.
  destruct (dl_config_padding e s r2 st0) as [[r3 st1]|]; reflexivity.
Qed.

(** ** Frame of the slot steps *)

(** What a downlink slot step never changes. *)
Definition frame_dl (st st' : mac_nr) : Prop :=
  started st' = started st /\ args st' = args st /\ cfg st' = cfg st /\
  bcch_dlsch_payload st' = bcch_dlsch_payload st /\
  ue_rx_pdu_queue st' = ue_rx_pdu_queue st.

Lemma frame_dl_trans : forall a b c, frame_dl a b -> frame_dl b c -> frame_dl a c.
Proof. unfold frame_dl. intuition congruence. Qed.

Lemma list_set_nth_other : forall {A} (v : list A) n m x,
  n <> m -> nth_error (list_set v n x) m = nth_error v m.
Proof.
  induction v as [|h t IH]; intros n m x Hne; [reflexivity|].
  destruct n, m; simpl; try reflexivity; [congruence|]. apply IH. congruence.
Qed.

Lemma vec_at_list_set_other : forall {A} (v : list A) i j x,
  0 <= i -> j <> i -> vec_at (list_set v (Z.to_nat i) x) j = vec_at v j.
Proof.
  intros A v i j x Hi Hne. unfold vec_at.
  destruct (j <? 0) eqn:Hj; [reflexivity|]. apply Z.ltb_ge in Hj.
  apply list_set_nth_other. lia.
Qed.

Lemma dl_config_bch_frame : forall e tti req st req' st',
  dl_config_bch e tti req st = Some (req', st') ->
  frame_dl st st' /\ ue_tx_buffer st' = ue_tx_buffer st /\
  ue_rlc_buffer st' = ue_rlc_buffer st /\
  calls st' = calls st ++ (if tti mod 80 =? 0 then [RrcReadPduBcchBch tti] else []).
Proof.
  intros e tti req st req' st' H. unfold dl_config_bch in H.
  destruct (tti mod 80 =? 0); [destruct (rrc_read_pdu_bcch_bch e tti)|]; unfold_m;
    injection H as <- <-; destruct st; unfold frame_dl; simpl; rewrite ?app_nil_r; auto 10.
Qed.

Lemma dl_config_padding_frame : forall e tti req st req' st',
  dl_config_padding e tti req st = Some (req', st') ->
  frame_dl st st' /\ bcch_bch_payload st' = bcch_bch_payload st /\
  length (ue_tx_buffer st') = length (ue_tx_buffer st) /\
  (forall i, i <> tti mod SRSRAN_FDD_NOF_HARQ ->
     vec_at (ue_tx_buffer st') i = vec_at (ue_tx_buffer st) i) /\
  (pdus req <> [] -> req' = req /\ st' = st).
Proof.
  intros e tti req st req' st' H.
  assert (Hm : 0 <= tti mod SRSRAN_FDD_NOF_HARQ)
    by (apply Z.mod_pos_bound; unfold SRSRAN_FDD_NOF_HARQ; lia).
  unfold dl_config_padding in H.
  destruct (nof_pdus req =? 0) eqn:Hn; unfold_m.
  - assert (Hnil : pdus req = []).
    { unfold nof_pdus in Hn. apply Z.eqb_eq in Hn. destruct (pdus req); simpl in Hn; [auto|lia]. }
    destruct (vec_at _ _); [|discriminate]. cbn in H.
    destruct (rlc_read_pdu e _ _ _) as [pl w].
    destruct (0 <? pl); injection H as <- <-; destruct st; unfold frame_dl; simpl;
      (split; [auto 10|]); (split; [reflexivity|]);
      rewrite ?list_set_length; (split; [reflexivity|]);
      (split; [intros i Hi; rewrite ?vec_at_list_set_other by (auto; lia); reflexivity|]);
      intros Hne; congruence.
  - injection H as <- <-. unfold frame_dl. auto 10.
Qed.

Lemma get_dl_config_steps : forall e s c0 st c req st1,
  get_dl_config e s c0 empty_tx_request st = Some ((c, req), st1) ->
  exists req1 st0 req2 req3,
    dl_config_bch e s empty_tx_request st = Some (req1, st0) /\
    dl_config_sibs s 0 (bcch_dlsch_payload st0) req1 = Some req2 /\
    dl_config_padding e s req2 st0 = Some (req3, st1) /\
    c = {| cfg_tti := s |} /\ req = set_tti s req3.
Proof.
  intros e s c0 st c req st1 H. unfold get_dl_config in H. unfold_m.
  destruct (dl_config_bch e s empty_tx_request st) as [[req1 st0]|]; [|discriminate].
  destruct (dl_config_sibs s 0 (bcch_dlsch_payload st0) req1) as [req2|] eqn:Hs;
    [|discriminate].
  destruct (dl_config_padding e s req2 st0) as [[req3 st1']|] eqn:Hp; [|discriminate].
  inversion H; subst. exists req1, st0, req2, req3. auto.
Qed.

Lemma slot_indication_frame : forall e s st r st2,
  slot_indication e s st = Some (r, st2) ->
  r = SRSRAN_SUCCESS /\ frame_dl st st2 /\
  length (ue_tx_buffer st2) = length (ue_tx_buffer st) /\
  (forall i, i <> s mod SRSRAN_FDD_NOF_HARQ ->
     vec_at (ue_tx_buffer st2) i = vec_at (ue_tx_buffer st) i).
Proof.
  intros e s st r st2 H. rewrite slot_indication_spec in H.
  destruct (get_dl_config e s _ _ st) as [[[c req] st1]|] eqn:Hg; [|discriminate].
  inversion H; subst; clear H.
  destruct (get_dl_config_steps _ _ _ _ _ _ _ Hg)
    as (req1 & st0 & req2 & req3 & Hb & Hs & Hp & _ & _).
  destruct (dl_config_bch_frame _ _ _ _ _ _ Hb) as (Hf0 & Htx0 & _).
  destruct (dl_config_padding_frame _ _ _ _ _ _ Hp) as (Hf1 & _ & Hlen & Hoth & _).
  assert (Hf : frame_dl st st1) by (eapply frame_dl_trans; eauto).
  split; [reflexivity|].
  destruct st1; unfold frame_dl in *; simpl in *.
  split; [exact Hf|]. rewrite Hlen, Htx0. split; [reflexivity|].
  intros i Hi. rewrite Hoth by exact Hi. rewrite Htx0. reflexivity.
Qed.

(** ** Initialisation *)

Lemma alloc_tx_buffers_ok : forall e n st,
  make_byte_buffer_ok e = true ->
  alloc_tx_buffers e n st = Some (true, with_tx_buffer (ue_tx_buffer st ++ repeat [] n) st).
Proof.
  intros e n. induction n as [|n IH]; intros st Hok; cbn [alloc_tx_buffers].
  - unfold_m. rewrite app_nil_r. destruct st; reflexivity.
  - rewrite Hok. unfold_m. rewrite IH by exact Hok. destruct st; simpl.
    rewrite <- app_assoc. reflexivity.
Qed.

(** The state [init] leaves when every buffer allocation succeeds. *)
Definition init_state (a : mac_nr_args_t) (st : mac_nr) : mac_nr :=
  {| started := true; args := a; cfg := cfg st; bcch_bch_payload := [];
     bcch_dlsch_payload := bcch_dlsch_payload st;
     ue_tx_buffer := ue_tx_buffer st ++ repeat [] (Z.to_nat SRSRAN_FDD_NOF_HARQ);
     ue_rlc_buffer := []; ue_rx_pdu_queue := ue_rx_pdu_queue st; calls := calls st |}.

Lemma init_ok : forall e a st,
  make_byte_buffer_ok e = true -> init e a st = Some (SRSRAN_SUCCESS, init_state a st).
Proof.
  intros e a st Hok. unfold init. rewrite Hok. simpl negb. cbv iota. unfold_m.
  rewrite alloc_tx_buffers_ok by exact Hok. simpl. destruct st; reflexivity.
Qed.

Lemma cell_cfg_loop_frame : forall e c n i st st',
  cell_cfg_loop e c i n st = Some (tt, st') ->
  started st' = started st /\ args st' = args st /\ cfg st' = cfg st /\
  ue_tx_buffer st' = ue_tx_buffer st.
Proof.
  intros e c n. induction n as [|n IH]; intros i st st' H; cbn [cell_cfg_loop] in H.
  - unfold_m. injection H as <-. auto.
  - destruct (0 <? len (sibs0 c)); [destruct (negb (make_byte_buffer_ok e))|]; unfold_m;
      [discriminate| |]; apply IH in H; destruct st; simpl in H; exact H.
Qed.

(** ** What the descriptors point at *)

(** The buffer a descriptor's [data[0]] points into, in a state. *)
Definition buf_of (st : mac_nr) (r : buf_ref) : option bytes :=
  match r with
  | BcchBchPayload => Some (bcch_bch_payload st)
  | BcchDlschPayload k => option_map payload (nth_error (bcch_dlsch_payload st) k)
  | UeTxBuffer i => vec_at (ue_tx_buffer st) i
  end.

(** A descriptor's length is the size of the buffer it points at. *)
Definition describes (st : mac_nr) (d : tx_request_pdu) : Prop :=
  exists b, buf_of st (data0 d) = Some b /\ pdu_length d = Z.of_nat (length b).

Lemma dl_config_sibs_describes : forall tti l k req req',
  dl_config_sibs tti k l req = Some req' ->
  exists ds, pdus req' = pdus req ++ ds /\
    Forall (fun d => exists j sib, data0 d = BcchDlschPayload (k + j) /\
              nth_error l j = Some sib /\
              pdu_length d = Z.of_nat (length (payload sib))) ds.
Proof.
  induction l as [|sib l IH]; intros k req req' H; cbn [dl_config_sibs] in H.
  - injection H as <-. exists []. rewrite app_nil_r. auto.
  - destruct (0 <? Z.of_nat (length (payload sib))).
    + destruct (u32 (periodicity sib * 10) =? 0); [discriminate|].
      destruct (tti mod u32 (periodicity sib * 10) =? 0).
      * apply IH in H as (ds & Heq & Hf). simpl in Heq.
        eexists. rewrite Heq, <- app_assoc. split; [reflexivity|].
        constructor.
        -- exists 0%nat, sib. rewrite Nat.add_0_r. auto.
        -- eapply Forall_impl; [|exact Hf]. intros d (j & s' & Hd & Hn & Hl).
           exists (S j), s'. rewrite Hd. split; [f_equal; lia|auto].
      * apply IH in H as (ds & Heq & Hf). exists ds. split; [exact Heq|].
        eapply Forall_impl; [|exact Hf]. intros d (j & s' & Hd & Hn & Hl).
        exists (S j), s'. rewrite Hd. split; [f_equal; lia|auto].
    + apply IH in H as (ds & Heq & Hf). exists ds. split; [exact Heq|].
      eapply Forall_impl; [|exact Hf]. intros d (j & s' & Hd & Hn & Hl).
      exists (S j), s'. rewrite Hd. split; [f_equal; lia|auto].
Qed.

Lemma dl_config_padding_describes : forall e tti req st req' st',
  dl_config_padding e tti req st = Some (req', st') ->
  exists l2, pdus req' = pdus req ++ l2 /\ Forall (describes st') l2.
Proof.
  intros e tti req st req' st' H. unfold dl_config_padding in H.
  destruct (nof_pdus req =? 0); unfold_m.
  - destruct (vec_at (ue_tx_buffer st) (tti mod SRSRAN_FDD_NOF_HARQ)) eqn:Hv;
      [|discriminate].
    cbn in H. destruct (rlc_read_pdu e _ _ _) as [pl w].
    destruct (0 <? pl); injection H as <- <-.
    + eexists. split; [reflexivity|]. constructor; [|constructor].
      eexists. split; [|reflexivity]. simpl.
      unfold vec_at in *. destruct (tti mod SRSRAN_FDD_NOF_HARQ <? 0); [discriminate|].
      apply list_set_nth. rewrite list_set_length.
      apply nth_error_Some. congruence.
    + exists []. rewrite app_nil_r. auto.
  - injection H as <- <-. exists []. rewrite app_nil_r. auto.
Qed.

Lemma describes_frame : forall st st' d,
  bcch_bch_payload st' = bcch_bch_payload st ->
  bcch_dlsch_payload st' = bcch_dlsch_payload st ->
  (forall i, data0 d <> UeTxBuffer i) ->
  describes st d -> describes st' d.
Proof.
  intros st st' d Hb Hs Hn (b & Hbuf & Hl). exists b. split; [|exact Hl].
  destruct (data0 d) eqn:Hd; simpl in *; [congruence|congruence|].
  exfalso. apply (Hn i). reflexivity.
Qed.

Lemma get_dl_config_describes : forall e s c0 st c req st1,
  get_dl_config e s c0 empty_tx_request st = Some ((c, req), st1) ->
  Forall (describes st1) (pdus req).
Proof.
  intros e s c0 st c req st1 H.
  destruct (get_dl_config_steps _ _ _ _ _ _ _ H)
    as (req1 & st0 & req2 & req3 & Hb & Hs & Hp & _ & ->).
  destruct (dl_config_bch_spec e s st) as (st0' & Hb' & _ & _ & _ & _ & Hbp).
  rewrite Hb in Hb'. injection Hb' as -> ->.
  destruct (dl_config_sibs_describes _ _ _ _ _ Hs) as (ds & Hds & Hf). simpl in Hds.
  destruct (dl_config_padding_describes _ _ _ _ _ _ Hp) as (l2 & Hl2 & Hf2).
  destruct (dl_config_padding_frame _ _ _ _ _ _ Hp) as ((_ & _ & _ & Hsb & _) & Hbch & _).
  simpl. rewrite Hl2, Hds. apply Forall_app. split; [apply Forall_app; split|exact Hf2].
  - unfold mib_pdus in *.
    destruct (s mod 80 =? 0) eqn:H80; [|constructor].
    destruct (rrc_read_pdu_bcch_bch e s) as [p|] eqn:Hr; [|constructor].
    constructor; [|constructor]. exists p. simpl. rewrite Hbch.
    rewrite (Hbp p) by (auto; apply Z.eqb_eq; exact H80). auto.
  - eapply Forall_impl; [|exact Hf]. intros d (j & sib & Hd & Hn & Hl).
    exists (payload sib). rewrite Hd. simpl. rewrite Hsb, Hn. auto.
Qed.

Lemma get_dl_config_split : forall e s c0 st c req st1,
  sibs_divisible (bcch_dlsch_payload st) ->
  get_dl_config e s c0 empty_tx_request st = Some ((c, req), st1) ->
  exists st0 ds req3,
    dl_config_bch e s empty_tx_request st = Some ({| tx_tti := 0; pdus := mib_pdus e s |}, st0) /\
    length ds = length (filter (sib_due s) (bcch_dlsch_payload st)) /\
    dl_config_padding e s {| tx_tti := 0; pdus := mib_pdus e s ++ ds |} st0 = Some (req3, st1) /\
    c = {| cfg_tti := s |} /\ req = set_tti s req3.
Proof.
  intros e s c0 st c req st1 Hdiv H.
  destruct (get_dl_config_steps _ _ _ _ _ _ _ H)
    as (req1 & st0 & req2 & req3 & Hb & Hs & Hp & Hc & Hr).
  destruct (dl_config_bch_spec e s st) as (st0' & Hb' & _ & Hsb & _).
  rewrite Hb in Hb'. injection Hb' as -> ->.
  assert (Hidx : indexed {| tx_tti := 0; pdus := mib_pdus e s |}).
  { unfold indexed, mib_pdus. simpl. intros i d.
    destruct (s mod 80 =? 0), (rrc_read_pdu_bcch_bch e s);
      destruct i as [|[|i]]; simpl; intros Hd; inversion Hd; reflexivity. }
  rewrite Hsb in Hs.
  destruct (dl_config_sibs_spec s (bcch_dlsch_payload st) 0 _ Hdiv Hidx)
    as (ds & Hs' & _ & _ & Hlen & _).
  rewrite Hs in Hs'. injection Hs' as ->.
  exists st0', ds, req3. auto.
Qed.

(** The slot in which neither broadcast step adds a descriptor. *)
Lemma padding_slot : forall e s st,
  slot_ok st s -> mib_pdus e s = [] -> filter (sib_due s) (bcch_dlsch_payload st) = [] ->
  let nb := u32 (tb_size (args st) - 2) in
  let '(pdu_len, written) := rlc_read_pdu e (rnti (args st)) UE_LCID nb in
  let packed := padding_pdu (tb_size (args st)) pdu_len written in
  exists req st2,
    slot_indication e s st = Some (SRSRAN_SUCCESS, st2) /\
    calls st2 = calls st ++ (if s mod 80 =? 0 then [RrcReadPduBcchBch s] else []) ++
                [RlcReadPdu (rnti (args st)) UE_LCID nb; PhyDlConfigRequest {| cfg_tti := s |};
                 PhyTxRequest req] /\
    (pdu_len <= 0 -> req = {| tx_tti := s; pdus := [] |}) /\
    vec_at (ue_tx_buffer st2) (s mod SRSRAN_FDD_NOF_HARQ) =
      Some (if 0 <? pdu_len then packed else []).
Proof.
  intros e s st Hok Hmib Hdue.
  destruct (get_dl_config_spec e s st {| cfg_tti := 0 |} Hok)
    as (ds0 & st0' & req3' & st1 & _ & Hget & _).
  destruct (get_dl_config_split _ _ _ _ _ _ _ (proj2 (proj2 Hok)) Hget)
    as (st0 & ds & req3 & Hb & Hlen & Hpad & _ & Hreq).
  rewrite Hdue in Hlen. destruct ds; [|discriminate]. rewrite Hmib in Hpad. simpl in Hpad.
  destruct (dl_config_bch_frame _ _ _ _ _ _ Hb) as ((_ & Ha & _) & Htx & _ & Hcalls).
  destruct Hok as (Hs & Hpool & _).
  pose proof (dl_config_padding_empty e s {| tx_tti := 0; pdus := [] |} st0 eq_refl Hs
                ltac:(rewrite Htx; exact Hpool)) as Hpe.
  rewrite Ha in Hpe. cbv zeta in Hpe |- *.
  destruct (rlc_read_pdu e (rnti (args st)) UE_LCID (u32 (tb_size (args st) - 2)))
    as [pdu_len written].
  destruct Hpe as (st1' & Hr & Hc & Hvec & _).
  rewrite Hpad in Hr. injection Hr as Hr3 <-.
  exists (set_tti s req3), (with_calls (calls st1 ++ [PhyDlConfigRequest {| cfg_tti := s |};
                                                     PhyTxRequest (set_tti s req3)]) st1).
  rewrite Hreq in Hget. rewrite slot_indication_spec, Hget. split; [reflexivity|].
  split; [simpl; rewrite Hc, Hcalls, <- !app_assoc; reflexivity|].
  split; [|destruct st1; exact Hvec].
  intros Hle. rewrite Hr3. replace (0 <? pdu_len) with false by (symmetry; apply Z.ltb_ge; lia).
  reflexivity.
Qed.


(** ** Upper-layer delivery *)

(** A delivery to the upper layer: [rlc_h->write_pdu]. *)
Definition is_rlc_write (c : call) : bool :=
  match c with RlcWritePdu _ _ _ => true | _ => false end.

(** An operation that, when it completes, only appends to the call trace,
    and appends no delivery to the upper layer. *)
Definition no_delivery {A} (m : M A) : Prop :=
  forall st a st', m st = Some (a, st') ->
  exists added, calls st' = calls st ++ added /\
    Forall (fun c => is_rlc_write c = false) added.

Lemma nd_ret : forall A (a : A), no_delivery (ret a).
Proof.
  unfold no_delivery, ret. intros A a st a' st' H. injection H as _ <-.
  exists []. rewrite app_nil_r. auto.
Qed.

Lemma nd_get : no_delivery get.
Proof.
  unfold no_delivery, get. intros st a st' H. injection H as _ <-.
  exists []. rewrite app_nil_r. auto.
Qed.

Lemma nd_crash : forall A, no_delivery (@crash A).
Proof. unfold no_delivery, crash. discriminate. Qed.

Lemma nd_lift : forall A (o : option A), no_delivery (lift o).
Proof.
  unfold no_delivery, lift. intros A o st a st' H. destruct o; [|discriminate].
  injection H as _ <-. exists []. rewrite app_nil_r. auto.
Qed.

Lemma nd_modify : forall f, (forall st, calls (f st) = calls st) -> no_delivery (modify f).
Proof.
  unfold no_delivery, modify. intros f Hf st a st' H. injection H as _ <-.
  exists []. rewrite app_nil_r. auto.
Qed.

Lemma nd_emit : forall c, is_rlc_write c = false -> no_delivery (emit c).
Proof.
  unfold no_delivery, emit, modify. intros c Hc st a st' H. injection H as _ <-.
  exists [c]. split; [destruct st; reflexivity|]. constructor; auto.
Qed.

Lemma nd_bind : forall A B (m : M A) (k : A -> M B),
  no_delivery m -> (forall a, no_delivery (k a)) -> no_delivery (bind m k).
Proof.
  unfold no_delivery, bind. intros A B m k Hm Hk st b st'' H.
  destruct (m st) as [[a st']|] eqn:Hst; [|discriminate].
  destruct (Hm _ _ _ Hst) as (l1 & H1 & F1).
  destruct (Hk a _ _ _ H) as (l2 & H2 & F2).
  exists (l1 ++ l2). rewrite H2, H1, app_assoc. split; [reflexivity|].
  apply Forall_app. auto.
Qed.

Ltac nd_step :=
  match goal with
  | |- no_delivery (bind _ _) => apply nd_bind; [|intro]
  | |- no_delivery (ret _) => apply nd_ret
  | |- no_delivery get => apply nd_get
  | |- no_delivery crash => apply nd_crash
  | |- no_delivery (lift _) => apply nd_lift
  | |- no_delivery (emit _) => apply nd_emit; reflexivity
  | |- no_delivery (modify _) => apply nd_modify; intros; reflexivity
  | |- no_delivery (match ?x with _ => _ end) => destruct x
  end.

Ltac nd_solve := repeat nd_step.

Lemma nd_dl_config_bch : forall e tti req, no_delivery (dl_config_bch e tti req).
Proof. intros. unfold dl_config_bch. nd_solve. Qed.

Lemma nd_dl_config_padding : forall e tti req, no_delivery (dl_config_padding e tti req).
Proof. intros. unfold dl_config_padding. nd_solve. Qed.

Lemma nd_get_dl_config : forall e tti c r, no_delivery (get_dl_config e tti c r).
Proof.
  intros. unfold get_dl_config.
  apply nd_bind; [apply nd_dl_config_bch|intro].
  apply nd_bind; [apply nd_get|intro].
  apply nd_bind; [apply nd_lift|intro].
  apply nd_bind; [apply nd_dl_config_padding|intro]. nd_solve.
Qed.

Lemma nd_slot_indication : forall e s, no_delivery (slot_indication e s).
Proof.
  intros. unfold slot_indication.
  apply nd_bind; [apply nd_get_dl_config|intro]. nd_solve.
Qed.

Lemma nd_rx_data_indication : forall tb, no_delivery (rx_data_indication tb).
Proof. intros. unfold rx_data_indication. nd_solve. Qed.

Lemma nd_handle_subpdus : forall l, no_delivery (handle_subpdus l).
Proof. induction l; simpl; [apply nd_ret|assumption]. Qed.

Lemma nd_handle_pdu : forall b, no_delivery (handle_pdu b).
Proof.
  intros. unfold handle_pdu. destruct (MacPdu.unpack b); [|apply nd_ret].
  apply nd_bind; [apply nd_handle_subpdus|intro]. apply nd_ret.
Qed.

Lemma nd_process_pdus_loop : forall n, no_delivery (process_pdus_loop n).
Proof.
  induction n as [|n IH]; simpl; [apply nd_ret|].
  apply nd_bind; [apply nd_get|intro]. nd_step; [|apply nd_ret].
  apply nd_bind; [unfold wait_pop; nd_solve|intro].
  apply nd_bind; [apply nd_handle_pdu|intro]. exact IH.
Qed.

Lemma nd_process_pdus : no_delivery process_pdus.
Proof. intros st a st' H. exact (nd_process_pdus_loop _ st a st' H). Qed.

Lemma nd_cell_cfg_loop : forall e c n i, no_delivery (cell_cfg_loop e c i n).
Proof.
  intros e c n. induction n as [|n IH]; intros i; simpl; [apply nd_ret|].
  apply nd_bind; [nd_solve|intro]. apply IH.
Qed.

Lemma nd_cell_cfg : forall e c, no_delivery (cell_cfg e c).
Proof.
  intros. unfold cell_cfg. apply nd_bind; [nd_solve|intro].
  apply nd_bind; [apply nd_cell_cfg_loop|intro]. apply nd_ret.
Qed.

Lemma nd_alloc_tx_buffers : forall e n, no_delivery (alloc_tx_buffers e n).
Proof.
  intros e n. induction n as [|n IH]; simpl; [apply nd_ret|].
  destruct (make_byte_buffer_ok e); [|apply nd_ret].
  apply nd_bind; [nd_solve|intro]. exact IH.
Qed.

Lemma nd_init : forall e a, no_delivery (init e a).
Proof.
  intros. unfold init. apply nd_bind; [nd_solve|intro].
  destruct (negb (make_byte_buffer_ok e)); [apply nd_ret|].
  apply nd_bind; [nd_solve|intro].
  apply nd_bind; [apply nd_alloc_tx_buffers|intro]. nd_solve.
Qed.

Lemma nd_stop : no_delivery stop.
Proof. unfold stop. nd_solve. Qed.

(** Every method of [mac_nr], as a caller may invoke it. *)
Inductive mac_op :=
| OpInit (a : mac_nr_args_t)
| OpStop
| OpGetMetrics
| OpGetDlConfig (tti : Z)
| OpSlotIndication (s : Z)
| OpRxDataIndication (tb : option bytes)
| OpProcessPdus
| OpHandlePdu (pdu : bytes)
| OpCellCfg (c : cell_cfg_t)
| OpGetDlSched (s : Z)
| OpGetUlSched (s : Z)
| OpPucchInfo (s : Z)
| OpPuschInfo (s : Z).

Definition run_op (e : env) (o : mac_op) : M unit :=
  match o with
  | OpInit a => init e a ;;; ret tt
  | OpStop => stop
  | OpGetMetrics => get_metrics
  | OpGetDlConfig tti => get_dl_config e tti {| cfg_tti := 0 |} empty_tx_request ;;; ret tt
  | OpSlotIndication s => slot_indication e s ;;; ret tt
  | OpRxDataIndication tb => rx_data_indication tb ;;; ret tt
  | OpProcessPdus => process_pdus
  | OpHandlePdu pdu => handle_pdu pdu ;;; ret tt
  | OpCellCfg c => cell_cfg e c ;;; ret tt
  | OpGetDlSched s => get_dl_sched s ;;; ret tt
  | OpGetUlSched s => get_ul_sched s ;;; ret tt
  | OpPucchInfo s => pucch_info s ;;; ret tt
  | OpPuschInfo s => pusch_info s ;;; ret tt
  end.

(** A sequence of method calls, each on the state the previous one left. *)
Fixpoint run_ops (e : env) (l : list mac_op) : M unit :=
  match l with
  | [] => ret tt
  | o :: rest => run_op e o ;;; run_ops e rest
  end.

Lemma nd_run_op : forall e o, no_delivery (run_op e o).
Proof.
  intros e o. destruct o; simpl;
    try (apply nd_bind; [|intro; apply nd_ret]).
  all: first [ apply nd_init | apply nd_stop | apply nd_ret | apply nd_get_dl_config
             | apply nd_slot_indication | apply nd_rx_data_indication
             | apply nd_process_pdus | apply nd_handle_pdu | apply nd_cell_cfg ].
Qed.

Lemma nd_run_ops : forall e l, no_delivery (run_ops e l).
Proof.
  intros e l. induction l as [|o l IH]; simpl; [apply nd_ret|].
  apply nd_bind; [apply nd_run_op|intro]. exact IH.
Qed.

Lemma no_rlc_write : forall added,
  Forall (fun c => is_rlc_write c = false) added ->
  forall r lc sdu, ~ In (RlcWritePdu r lc sdu) added.
Proof.
  intros added H r lc sdu Hin. rewrite Forall_forall in H. apply H in Hin. discriminate.
Qed.

(** ** SIB descriptors in cache order *)

(** The positions of the due entries of a SIB cache, from position [k]. *)
Fixpoint due_positions (tti : Z) (k : nat) (l : list sib_info) : list nat :=
  match l with
  | [] => []
  | sib :: rest =>
    if sib_due tti sib then k :: due_positions tti (S k) rest
    else due_positions tti (S k) rest
  end.

Lemma dl_config_sibs_order : forall tti l k req req',
  dl_config_sibs tti k l req = Some req' ->
  exists ds, pdus req' = pdus req ++ ds /\
    map data0 ds = map BcchDlschPayload (due_positions tti k l) /\
    map pdu_length ds =
      map (fun sib => Z.of_nat (length (payload sib))) (filter (sib_due tti) l).
Proof.
  induction l as [|sib l IH]; intros k req req' H; cbn [dl_config_sibs] in H.
  - injection H as <-. exists []. rewrite app_nil_r. auto.
  - cbn [due_positions filter].
    destruct (0 <? Z.of_nat (length (payload sib))) eqn:Hp.
    + destruct (u32 (periodicity sib * 10) =? 0); [discriminate|].
      destruct (tti mod u32 (periodicity sib * 10) =? 0) eqn:Hm.
      * replace (sib_due tti sib) with true by (unfold sib_due; rewrite Hp, Hm; reflexivity).
        apply IH in H as (ds & Heq & Hd & Hl). simpl in Heq.
        eexists. rewrite Heq, <- app_assoc. split; [reflexivity|].
        simpl. rewrite Hd, Hl. auto.
      * replace (sib_due tti sib) with false by (unfold sib_due; rewrite Hp, Hm; reflexivity).
        apply IH in H. exact H.
    + replace (sib_due tti sib) with false by (unfold sib_due; rewrite Hp; reflexivity).
      apply IH in H. exact H.
Qed.

(** A non-empty SIB entry whose 32-bit period product is zero. *)
Definition zero_period (sib : sib_info) : Prop :=
  0 < Z.of_nat (length (payload sib)) /\ u32 (periodicity sib * 10) = 0.

Lemma dl_config_sibs_zero_period : forall tti l k req j sib,
  nth_error l j = Some sib -> zero_period sib -> dl_config_sibs tti k l req = None.
Proof.
  induction l as [|sib' l IH]; intros k req j sib Hj [Hp Hz]; [destruct j; discriminate|].
  cbn [dl_config_sibs]. destruct j as [|j].
  - injection Hj as <-. apply Z.ltb_lt in Hp. rewrite Hp, Hz. reflexivity.
  - destruct (0 <? Z.of_nat (length (payload sib'))); [|eapply IH; eauto; split; eauto].
    destruct (u32 (periodicity sib' * 10) =? 0); [reflexivity|].
    destruct (tti mod u32 (periodicity sib' * 10) =? 0); eapply IH; eauto; split; eauto.
Qed.

Lemma sibs_divisible_or_zero : forall l,
  sibs_divisible l \/ exists j sib, nth_error l j = Some sib /\ zero_period sib.
Proof.
  induction l as [|sib l IH]; [left; constructor|].
  destruct (Z.ltb_spec 0 (Z.of_nat (length (payload sib)))) as [Hp|Hp];
    [destruct (Z.eqb_spec (u32 (periodicity sib * 10)) 0) as [Hz|Hz]|].
  - right. exists 0%nat, sib. split; [reflexivity|split; assumption].
  - destruct IH as [IH|(j & s & Hj & Hs)]; [left; constructor; auto|].
    right. exists (S j), s. auto.
  - destruct IH as [IH|(j & s & Hj & Hs)]; [left; constructor; [lia|auto]|].
    right. exists (S j), s. auto.
Qed.

Lemma get_dl_config_zero_period : forall e s c0 st j sib,
  nth_error (bcch_dlsch_payload st) j = Some sib -> zero_period sib ->
  get_dl_config e s c0 empty_tx_request st = None.
Proof.
  intros e s c0 st j sib Hj Hz. unfold get_dl_config. unfold_m.
  destruct (dl_config_bch_spec e s st) as (st0 & Hb & _ & Hsb & _).
  rewrite Hb, Hsb. erewrite dl_config_sibs_zero_period by eauto. reflexivity.
Qed.


(** ** Concrete configurations *)

(** An environment and cell configuration for concrete runs. *)
Definition env_c : env :=
  {| rrc_read_pdu_bcch_bch := fun _ => Some [1; 2; 3];
     rrc_read_pdu_bcch_dlsch := fun i => if i =? 0 then Some [9] else None;
     rlc_read_pdu := fun _ _ _ => (3, [5; 6; 7]);
     make_byte_buffer_ok := true |}.

Definition args_c : mac_nr_args_t := {| rnti := 70; tb_size := 64 |}.

Definition state_after {A} (m : M A) (st : mac_nr) : mac_nr :=
  match m st with Some (_, st') => st' | None => st end.

Definition st_c : mac_nr := state_after (init env_c args_c) mac_nr_new.

Definition sib_c : sib_info := {| index := 0; periodicity := 1; payload := [9] |}.

(** The started MAC with one cached SIB due every 10 slots. *)
Definition st_w : mac_nr := with_sibs [sib_c] st_c.

(** A buffer the codec unpacks into one sub-PDU for logical channel 4. *)
Definition pdu_c1 : bytes := MacPdu.pack_list 64 [(4, [1])].

(** The MAC after [init] then [stop]. *)
Definition st_stopped : mac_nr := state_after (init env_c args_c ;;; stop) mac_nr_new.

(** A started MAC with a malformed buffer (a sub-header without its
    length field) queued before a well-formed one. *)
Definition st_c7 : mac_nr := with_queue [[0]; pdu_c1] st_c.



(** An environment in which RRC has nothing to broadcast and RLC
    nothing to send. *)
Definition env_idle : env :=
  {| rrc_read_pdu_bcch_bch := fun _ => None;
     rrc_read_pdu_bcch_dlsch := fun _ => None;
     rlc_read_pdu := fun _ _ _ => (0, []);
     make_byte_buffer_ok := true |}.

(** A cell configuration with SIB1 every 16 radio frames, and one with
    SIB1 every 8. *)
Definition cfg_c16 : cell_cfg_t := {| sibs := [{| len := 1; period_rf := 16 |}] |}.

Definition cfg_c8 : cell_cfg_t := {| sibs := [{| len := 1; period_rf := 8 |}] |}.

(* ================================================================== *)
(** * Claims *)

(** C3: in every slot [s] with [s mod 80 = 0], when RRC supplies the BCH
    payload the request handed to the PHY holds a descriptor with
    [mib_present] set that points at the freshly read payload; when RRC
    fails no such descriptor is added and the slot entry point still
    returns success; when [s mod 80 <> 0] no descriptor has
    [mib_present] set. *)
Theorem C3_mib_every_80_slots : forall e st s,
  slot_ok st s ->
  exists req st1,
    slot_indication e s st =
      Some (SRSRAN_SUCCESS,
            with_calls (calls st1 ++ [PhyDlConfigRequest {| cfg_tti := s |}; PhyTxRequest req]) st1) /\
    (s mod 80 = 0 -> forall p, rrc_read_pdu_bcch_bch e s = Some p ->
       bcch_bch_payload st1 = p /\
       In {| mib_present := true; data0 := BcchBchPayload;
             pdu_length := Z.of_nat (length p); pdu_index := 0 |} (pdus req)) /\
    (s mod 80 = 0 -> rrc_read_pdu_bcch_bch e s = None ->
       forall d, In d (pdus req) -> mib_present d = false) /\
    (s mod 80 <> 0 -> forall d, In d (pdus req) -> mib_present d = false).
Proof.
  intros e st s Hok.
  destruct (get_dl_config_spec e s st {| cfg_tti := 0 |} Hok)
    as (ds & st0 & req3 & st1 & Hpad & Hget & Hidx & Hf & Hlen & Hin & Ha & Hsb & Htx & Hp).
  destruct (dl_config_padding_shape _ _ _ _ _ _ Hpad)
    as (l2 & Hreq3 & Hf2 & _ & _ & _ & Hbch1 & _).
  simpl in Hreq3.
  assert (Hnomib : forall d, In d (pdus (set_tti s req3)) -> ~ In d (mib_pdus e s) ->
                    mib_present d = false).
  { intros d Hd Hn. simpl in Hd. rewrite Hreq3 in Hd.
    apply in_app_iff in Hd as [Hd|Hd]; [apply in_app_iff in Hd as [Hd|Hd]; [contradiction|]|].
    - rewrite Forall_forall in Hf. apply Hf; auto.
    - rewrite Forall_forall in Hf2. apply Hf2; auto. }
  exists (set_tti s req3), st1.
  rewrite slot_indication_spec, Hget. split; [reflexivity|].
  split; [|split].
  - intros H80 p Hr. rewrite Hbch1. split; [apply Hp; auto|].
    simpl. rewrite Hreq3. unfold mib_pdus. rewrite H80, Hr. simpl. left. reflexivity.
  - intros H80 Hr d Hd. apply Hnomib; auto. unfold mib_pdus. rewrite Hr.
    destruct (s mod 80 =? 0); simpl; tauto.
  - intros H80 d Hd. apply Hnomib; auto. unfold mib_pdus.
    replace (s mod 80 =? 0) with false by (symmetry; apply Z.eqb_neq; exact H80). simpl. tauto.
Qed.

Lemma C3_witness :
  exists req st1,
    slot_indication env_c 0 st_c =
      Some (SRSRAN_SUCCESS,
            with_calls (calls st1 ++ [PhyDlConfigRequest {| cfg_tti := 0 |}; PhyTxRequest req]) st1) /\
    (0 mod 80 = 0 -> forall p, rrc_read_pdu_bcch_bch env_c 0 = Some p ->
       bcch_bch_payload st1 = p /\
       In {| mib_present := true; data0 := BcchBchPayload;
             pdu_length := Z.of_nat (length p); pdu_index := 0 |} (pdus req)) /\
    (0 mod 80 = 0 -> rrc_read_pdu_bcch_bch env_c 0 = None ->
       forall d, In d (pdus req) -> mib_present d = false) /\
    (0 mod 80 <> 0 -> forall d, In d (pdus req) -> mib_present d = false).
Proof.
  apply C3_mib_every_80_slots.
  split; [lia|split; [vm_compute; lia|constructor]].
Defined.

Lemma u32_small : forall z, 0 <= z < 2 ^ 32 -> u32 z = z.
Proof. intros z Hz. unfold u32. apply Z.mod_small. exact Hz. Qed.

(** C4 (amended): for a cached SIB entry at position [k] with periodicity
    [p], let [d] be the 32-bit product [p * 10]. When no non-empty entry
    has [d = 0], the request of slot [s] holds a descriptor pointing at
    entry [k]'s cached payload iff that payload is non-empty and
    [s mod d = 0]; a due SIB with an empty payload contributes nothing.
    A non-empty entry with [d = 0] anywhere in the cache makes the slot a
    division by zero: the assembly and the slot entry point crash. One of
    the two cases always holds. [d] is [p * 10] exactly when
    [0 <= p <= 429496729]. *)
Theorem C4_sib_descriptor_iff_due : forall e st s k sib,
  0 <= s -> (8 <= length (ue_tx_buffer st))%nat ->
  nth_error (bcch_dlsch_payload st) k = Some sib ->
  (sibs_divisible (bcch_dlsch_payload st) ->
   exists req st1,
     get_dl_config e s {| cfg_tti := 0 |} empty_tx_request st =
       Some (({| cfg_tti := s |}, req), st1) /\
     bcch_dlsch_payload st1 = bcch_dlsch_payload st /\
     (In (BcchDlschPayload k) (map data0 (pdus req)) <->
        0 < Z.of_nat (length (payload sib)) /\ s mod u32 (periodicity sib * 10) = 0)) /\
  (forall j sib', nth_error (bcch_dlsch_payload st) j = Some sib' -> zero_period sib' ->
     get_dl_config e s {| cfg_tti := 0 |} empty_tx_request st = None /\
     slot_indication e s st = None) /\
  (sibs_divisible (bcch_dlsch_payload st) \/
   exists j sib', nth_error (bcch_dlsch_payload st) j = Some sib' /\ zero_period sib') /\
  (u32 (periodicity sib * 10) = periodicity sib * 10 <-> 0 <= periodicity sib <= 429496729).
Proof.
  intros e st s k sib Hs Hpool Hk. split; [|split; [|split]].
  - intros Hdiv. assert (Hok : slot_ok st s) by (split; [|split]; assumption).
    destruct (get_dl_config_spec e s st {| cfg_tti := 0 |} Hok)
      as (ds & st0 & req3 & st1 & Hpad & Hget & Hidx & Hf & Hlen & Hin & Ha & Hsb & Htx & Hp).
    destruct (dl_config_padding_shape _ _ _ _ _ _ Hpad)
      as (l2 & Hreq3 & Hf2 & _ & _ & _ & _ & Hsb1).
    simpl in Hreq3.
    exists (set_tti s req3), st1. split; [exact Hget|]. split; [congruence|].
    simpl. rewrite Hreq3, !map_app, !in_app_iff.
    split.
    + intros [[H|H]|H].
      * apply in_map_iff in H as [d [Hd Hin']]. apply in_mib_pdus in Hin' as [_ Hb]. congruence.
      * apply Hin in H as [sib' [Hk' Hdue]]. rewrite Hk in Hk'. inversion Hk'; subst.
        unfold sib_due in Hdue. apply andb_true_iff in Hdue as [H1 H2].
        split; [apply Z.ltb_lt; exact H1|apply Z.eqb_eq; exact H2].
      * apply in_map_iff in H as [d [Hd Hin']]. rewrite Forall_forall in Hf2.
        apply Hf2 in Hin' as [_ Ht]. rewrite Hd in Ht. contradiction.
    + intros [H1 H2]. left; right. apply Hin. exists sib. split; [exact Hk|].
      unfold sib_due. apply andb_true_iff.
      split; [apply Z.ltb_lt; exact H1|apply Z.eqb_eq; exact H2].
  - intros j sib' Hj Hz.
    assert (Hn : get_dl_config e s {| cfg_tti := 0 |} empty_tx_request st = None)
      by (eapply get_dl_config_zero_period; eauto).
    split; [exact Hn|]. rewrite slot_indication_spec, Hn. reflexivity.
  - apply sibs_divisible_or_zero.
  - split.
    + intros H. pose proof (Z.mod_pos_bound (periodicity sib * 10) (2 ^ 32)) as Hb.
      unfold u32 in H. rewrite H in Hb. lia.
    + intros H. apply u32_small. lia.
Qed.

Lemma C4_witness :
  (sibs_divisible (bcch_dlsch_payload st_w) ->
   exists req st1,
     get_dl_config env_c 0 {| cfg_tti := 0 |} empty_tx_request st_w =
       Some (({| cfg_tti := 0 |}, req), st1) /\
     bcch_dlsch_payload st1 = bcch_dlsch_payload st_w /\
     (In (BcchDlschPayload 0) (map data0 (pdus req)) <->
        0 < Z.of_nat (length (payload sib_c)) /\ 0 mod u32 (periodicity sib_c * 10) = 0)) /\
  (forall j sib', nth_error (bcch_dlsch_payload st_w) j = Some sib' -> zero_period sib' ->
     get_dl_config env_c 0 {| cfg_tti := 0 |} empty_tx_request st_w = None /\
     slot_indication env_c 0 st_w = None) /\
  (sibs_divisible (bcch_dlsch_payload st_w) \/
   exists j sib', nth_error (bcch_dlsch_payload st_w) j = Some sib' /\ zero_period sib') /\
  (u32 (periodicity sib_c * 10) = periodicity sib_c * 10 <-> 0 <= periodicity sib_c <= 429496729).
Proof.
  apply (C4_sib_descriptor_iff_due env_c st_w 0 0%nat sib_c).
  - lia.
  - vm_compute. lia.
  - vm_compute. reflexivity.
Defined.

(** C4 counterexample: with [period_rf = 429496730] the 32-bit product
    [p * 10] wraps to 4, and SIB 0 is sent in slot 4 although
    [4 mod (p * 10) <> 0]. *)
Lemma C4_cex :
  let st := state_after (init env_c args_c ;;;
                         cell_cfg env_c {| sibs := [{| len := 1; period_rf := 429496730 |}] |})
                        mac_nr_new in
  nth_error (bcch_dlsch_payload st) 0 =
    Some {| index := 0; periodicity := 429496730; payload := [9] |} /\
  match get_dl_config env_c 4 {| cfg_tti := 0 |} empty_tx_request st with
  | Some ((_, req), _) => In (BcchDlschPayload 0) (map data0 (pdus req))
  | None => False
  end /\
  4 mod (429496730 * 10) <> 0.
Proof.
  vm_compute. split; [reflexivity|]. split; [left; reflexivity|discriminate].
Qed.

(** C5 (amended): in a slot where neither the MIB step nor the SIB step
    appended a descriptor, the assembler asks RLC, for the configured RNTI
    and the fixed logical channel 4, for the 32-bit unsigned difference
    [tb_size - 2] of bytes: [tb_size - 2] when [tb_size >= 2], but
    [tb_size + 2^32 - 2] when [tb_size < 2]; if RLC
    returns zero or a negative length the request has no descriptor,
    otherwise it has exactly one, pointing at the HARQ buffer
    [s mod SRSRAN_FDD_NOF_HARQ], which holds the packed MAC PDU. *)
Theorem C5_unicast_fallback : forall e st s,
  slot_ok st s -> mib_pdus e s = [] -> filter (sib_due s) (bcch_dlsch_payload st) = [] ->
  let nb := u32 (tb_size (args st) - 2) in
  let '(pdu_len, written) := rlc_read_pdu e (rnti (args st)) UE_LCID nb in
  let packed := padding_pdu (tb_size (args st)) pdu_len written in
  exists req st1 pre,
    get_dl_config e s {| cfg_tti := 0 |} empty_tx_request st =
      Some (({| cfg_tti := s |}, req), st1) /\
    calls st1 = pre ++ [RlcReadPdu (rnti (args st)) UE_LCID nb] /\
    (2 <= tb_size (args st) < 2 ^ 32 -> nb = tb_size (args st) - 2) /\
    (0 <= tb_size (args st) < 2 -> nb = tb_size (args st) + 4294967294) /\
    (pdu_len <= 0 -> pdus req = []) /\
    (0 < pdu_len ->
       pdus req = [{| mib_present := false; data0 := UeTxBuffer (s mod SRSRAN_FDD_NOF_HARQ);
                      pdu_length := Z.of_nat (length packed); pdu_index := 0 |}] /\
       vec_at (ue_tx_buffer st1) (s mod SRSRAN_FDD_NOF_HARQ) = Some packed).
Proof.
  intros e st s Hok Hmib Hdue.
  destruct (get_dl_config_spec e s st {| cfg_tti := 0 |} Hok)
    as (ds & st0 & req3 & st1 & Hpad & Hget & Hidx & Hf & Hlen & Hin & Ha & Hsb & Htx & Hp).
  rewrite Hdue in Hlen. destruct ds; [|discriminate]. rewrite Hmib in Hpad. simpl in Hpad.
  destruct Hok as (Hs & Hpool & _).
  pose proof (dl_config_padding_empty e s {| tx_tti := 0; pdus := [] |} st0 eq_refl Hs
                ltac:(rewrite Htx; exact Hpool)) as Hpe.
  rewrite Ha in Hpe. cbv zeta in Hpe |- *.
  destruct (rlc_read_pdu e (rnti (args st)) UE_LCID (u32 (tb_size (args st) - 2)))
    as [pdu_len written].
  destruct Hpe as (st1' & Hr & Hcalls & Hvec & _).
  rewrite Hpad in Hr. inversion Hr; subst st1'. clear Hr.
  exists (set_tti s req3), st1, (calls st0). split; [exact Hget|].
  split; [exact Hcalls|].
  split; [intros Htb; apply u32_small; lia|].
  split.
  { intros Htb. unfold u32. change (2 ^ 32) with 4294967296.
    rewrite <- (Z.mod_add _ 1) by lia. rewrite Z.mod_small by lia. lia. }
  split.
  - intros Hle. replace (0 <? pdu_len) with false in H0 by (symmetry; apply Z.ltb_ge; lia).
    subst req3. reflexivity.
  - intros Hlt. replace (0 <? pdu_len) with true in H0, Hvec by (symmetry; apply Z.ltb_lt; lia).
    subst req3. split; [reflexivity|exact Hvec].
Qed.

Lemma C5_witness :
  let nb := u32 (tb_size (args st_c) - 2) in
  let '(pdu_len, written) := rlc_read_pdu env_c (rnti (args st_c)) UE_LCID nb in
  let packed := padding_pdu (tb_size (args st_c)) pdu_len written in
  exists req st1 pre,
    get_dl_config env_c 1 {| cfg_tti := 0 |} empty_tx_request st_c =
      Some (({| cfg_tti := 1 |}, req), st1) /\
    calls st1 = pre ++ [RlcReadPdu (rnti (args st_c)) UE_LCID nb] /\
    (2 <= tb_size (args st_c) < 2 ^ 32 -> nb = tb_size (args st_c) - 2) /\
    (0 <= tb_size (args st_c) < 2 -> nb = tb_size (args st_c) + 4294967294) /\
    (pdu_len <= 0 -> pdus req = []) /\
    (0 < pdu_len ->
       pdus req = [{| mib_present := false; data0 := UeTxBuffer (1 mod SRSRAN_FDD_NOF_HARQ);
                      pdu_length := Z.of_nat (length packed); pdu_index := 0 |}] /\
       vec_at (ue_tx_buffer st1) (1 mod SRSRAN_FDD_NOF_HARQ) = Some packed).
Proof.
  apply C5_unicast_fallback.
  - split; [lia|split; [vm_compute; lia|constructor]].
  - vm_compute. reflexivity.
  - vm_compute. reflexivity.
Defined.

(** C5 counterexample: with [tb_size = 0] the padding step of slot 1 asks
    RLC for 4294967294 bytes, not for at most [tb_size - 2 = -2]. *)
Lemma C5_cex :
  match get_dl_config env_c 1 {| cfg_tti := 0 |} empty_tx_request
          (with_args {| rnti := 70; tb_size := 0 |} st_c) with
  | Some (_, st') => In (RlcReadPdu 70 UE_LCID 4294967294) (calls st') /\ 0 - 2 < 4294967294
  | None => False
  end.
Proof. vm_compute. split; [left; reflexivity|reflexivity]. Qed.

(** C6 (amended): the assembler makes no capacity check. The descriptors
    of a slot are the MIB descriptor (at most one), then the SIB
    descriptors, then at most one unicast descriptor, which only appears
    when the first two groups are empty; descriptor [i] has index [i].
    The SIB descriptors correspond one to one, in cache order, to the due
    non-empty entries of the SIB cache: the [j]-th one points at the
    [j]-th due entry's position and has that entry's payload length.
    Their number is therefore at most one plus the number of cached SIB
    entries, and no fixed capacity bounds it for every configuration. *)
Theorem C6_descriptor_order_no_capacity_check : forall e st s,
  slot_ok st s ->
  exists req st1,
    get_dl_config e s {| cfg_tti := 0 |} empty_tx_request st =
      Some (({| cfg_tti := s |}, req), st1) /\
    exists l0 l1 l2,
      pdus req = l0 ++ l1 ++ l2 /\
      Forall (fun d => mib_present d = true /\ data0 d = BcchBchPayload) l0 /\
      Forall (fun d => mib_present d = false /\ is_sib_ref (data0 d)) l1 /\
      Forall (fun d => mib_present d = false /\ is_tx_ref (data0 d)) l2 /\
      (length l0 <= 1)%nat /\
      length l1 = length (filter (sib_due s) (bcch_dlsch_payload st)) /\
      map data0 l1 = map BcchDlschPayload (due_positions s 0 (bcch_dlsch_payload st)) /\
      map pdu_length l1 =
        map (fun sib => Z.of_nat (length (payload sib)))
          (filter (sib_due s) (bcch_dlsch_payload st)) /\
      (length l2 <= 1)%nat /\
      (l2 <> [] -> l0 = [] /\ l1 = []) /\
      indexed req.
Proof.
  intros e st s Hok.
  destruct (get_dl_config_spec e s st {| cfg_tti := 0 |} Hok) as (_ & _ & req3 & st1 & _ & Hget & _).
  destruct (get_dl_config_steps _ _ _ _ _ _ _ Hget)
    as (req1 & st0 & req2 & req3' & Hb & Hs & Hpad & _ & Hreq).
  rewrite Hreq in Hget.
  destruct (dl_config_bch_spec e s st) as (st0' & Hb' & _ & Hsb & _).
  rewrite Hb in Hb'. injection Hb' as -> ->. rewrite Hsb in Hs.
  assert (Hidx : indexed {| tx_tti := 0; pdus := mib_pdus e s |}).
  { unfold indexed, mib_pdus. simpl. intros i d.
    destruct (s mod 80 =? 0), (rrc_read_pdu_bcch_bch e s);
      destruct i as [|[|i]]; simpl; intros Hd; inversion Hd; reflexivity. }
  destruct (dl_config_sibs_spec s (bcch_dlsch_payload st) 0 _ (proj2 (proj2 Hok)) Hidx)
    as (ds & Hs2 & Hidx2 & Hf & Hlen & _).
  rewrite Hs in Hs2. injection Hs2 as Hreq2. simpl in Hreq2.
  destruct (dl_config_sibs_order _ _ _ _ _ Hs) as (ds' & Hds' & Hdata & Hlens).
  rewrite Hreq2 in Hds'. simpl in Hds'. apply app_inv_head in Hds'. subst ds'.
  subst req2.
  destruct (dl_config_padding_shape _ _ _ _ _ _ Hpad)
    as (l2 & Hreq3 & Hf2 & Hl2 & Hempty & Hidx3 & _ & _).
  simpl in Hreq3, Hempty.
  exists (set_tti s req3'), st1. split; [exact Hget|].
  exists (mib_pdus e s), ds, l2.
  split; [simpl; rewrite Hreq3, app_assoc; reflexivity|].
  split; [apply Forall_forall; intros d Hd; apply in_mib_pdus in Hd; exact Hd|].
  split; [exact Hf|]. split; [exact Hf2|].
  split; [unfold mib_pdus; destruct (s mod 80 =? 0), (rrc_read_pdu_bcch_bch e s); simpl; lia|].
  split; [exact Hlen|]. split; [exact Hdata|]. split; [exact Hlens|].
  split; [exact Hl2|].
  split; [intros H; apply app_eq_nil, Hempty, H|].
  specialize (Hidx3 Hidx2). unfold indexed in *. simpl. exact Hidx3.
Qed.

Lemma C6_witness :
  exists req st1,
    get_dl_config env_c 0 {| cfg_tti := 0 |} empty_tx_request st_w =
      Some (({| cfg_tti := 0 |}, req), st1) /\
    exists l0 l1 l2,
      pdus req = l0 ++ l1 ++ l2 /\
      Forall (fun d => mib_present d = true /\ data0 d = BcchBchPayload) l0 /\
      Forall (fun d => mib_present d = false /\ is_sib_ref (data0 d)) l1 /\
      Forall (fun d => mib_present d = false /\ is_tx_ref (data0 d)) l2 /\
      (length l0 <= 1)%nat /\
      length l1 = length (filter (sib_due 0) (bcch_dlsch_payload st_w)) /\
      map data0 l1 = map BcchDlschPayload (due_positions 0 0 (bcch_dlsch_payload st_w)) /\
      map pdu_length l1 =
        map (fun sib => Z.of_nat (length (payload sib)))
          (filter (sib_due 0) (bcch_dlsch_payload st_w)) /\
      (length l2 <= 1)%nat /\
      (l2 <> [] -> l0 = [] /\ l1 = []) /\
      indexed req.
Proof.
  apply C6_descriptor_order_no_capacity_check.
  split; [lia|split; [vm_compute; lia|]].
  repeat constructor. vm_compute. discriminate.
Defined.

(** C6 counterexample: whatever the capacity of the descriptor array, a
    configuration with that many due SIB entries fills it in slot 0 and
    the MIB descriptor goes beyond it. *)
Lemma C6_cex :
  ~ (exists cap : nat, forall n : nat,
       match get_dl_config env_c 0 {| cfg_tti := 0 |} empty_tx_request
               (with_sibs (repeat sib_c n) st_c) with
       | Some ((_, req), _) => (length (pdus req) <= cap)%nat
       | None => True
       end).
Proof.
  intros [cap H]. specialize (H cap).
  assert (Hok : slot_ok (with_sibs (repeat sib_c cap) st_c) 0).
  { split; [lia|]. split; [vm_compute; lia|].
    apply Forall_forall. intros x Hx. apply repeat_spec in Hx. subst. vm_compute. discriminate. }
  destruct (get_dl_config_spec env_c 0 _ {| cfg_tti := 0 |} Hok)
    as (ds & st0 & req3 & st1 & Hpad & Hget & Hidx & Hf & Hlen & Hin & Ha & Hsb & Htx & Hp).
  destruct (dl_config_padding_shape _ _ _ _ _ _ Hpad) as (l2 & Hreq3 & _).
  rewrite Hget in H. cbv beta iota in H. simpl pdus in H, Hreq3.
  rewrite Hreq3, !length_app in H.
  assert (Hm : length (mib_pdus env_c 0) = 1%nat) by reflexivity.
  simpl bcch_dlsch_payload in Hlen. rewrite filter_repeat_due in Hlen by reflexivity.
  simpl length in H. lia.
Qed.

(** C1 (amended): [handle_pdu] unpacks the buffer and makes no call to a
    collaborator whatever the outcome (the forwarding of each sub-PDU to
    RLC is commented out in the source), and the drain loop's only effect
    is to empty the queue when the MAC is started: no sub-PDU is
    delivered upward. No method of the module delivers anything upward
    either: along any sequence of calls to [init], [stop], [get_metrics],
    [get_dl_config], [slot_indication], [rx_data_indication],
    [process_pdus], [handle_pdu], [cell_cfg] and the scheduler stubs, the
    collaborator calls made are only appended to the trace, and none of
    them is an RLC [write_pdu]. *)
Theorem C1_drain_delivers_nothing : forall e l st,
  (forall b, exists r, handle_pdu b st = Some (r, st)) /\
  (exists st',
     process_pdus st = Some (tt, st') /\
     st' = with_queue (if started st then [] else ue_rx_pdu_queue st) st /\
     calls st' = calls st) /\
  (forall a st', run_ops e l st = Some (a, st') ->
     exists added, calls st' = calls st ++ added /\
       forall r lc sdu, ~ In (RlcWritePdu r lc sdu) added).
Proof.
  intros e l st. split; [|split].
  - intros b. rewrite handle_pdu_id. eexists. reflexivity.
  - rewrite process_pdus_drains. eexists. split; [reflexivity|].
    split; [reflexivity|]. destruct st; reflexivity.
  - intros a st' H. destruct (nd_run_ops e l st a st' H) as (added & Hc & Hf).
    exists added. split; [exact Hc|]. apply no_rlc_write. exact Hf.
Qed.

(** A run through every method, with a well-formed buffer received and
    drained. *)
Definition ops_c : list mac_op :=
  [OpInit args_c; OpCellCfg cfg_c16; OpSlotIndication 0; OpRxDataIndication (Some pdu_c1);
   OpProcessPdus; OpHandlePdu pdu_c1; OpGetDlConfig 1; OpGetMetrics; OpGetDlSched 0;
   OpGetUlSched 0; OpPucchInfo 0; OpPuschInfo 0; OpStop].

Lemma C1_witness :
  run_ops env_c ops_c mac_nr_new = Some (tt, state_after (run_ops env_c ops_c) mac_nr_new) /\
  exists added,
    calls (state_after (run_ops env_c ops_c) mac_nr_new) = calls mac_nr_new ++ added /\
    forall r lc sdu, ~ In (RlcWritePdu r lc sdu) added.
Proof.
  assert (Hrun : run_ops env_c ops_c mac_nr_new =
                 Some (tt, state_after (run_ops env_c ops_c) mac_nr_new))
    by (vm_compute; reflexivity).
  split; [exact Hrun|].
  destruct (C1_drain_delivers_nothing env_c ops_c mac_nr_new) as (_ & _ & H).
  exact (H tt _ Hrun).
Defined.

(** C1 counterexample: a started MAC with one well-formed buffer queued;
    the buffer unpacks into [(4, [1])], the drain loop empties the queue,
    and no RLC delivery appears in the call trace. *)
Lemma C1_cex :
  let st := with_queue [pdu_c1] st_c in
  started st = true /\ MacPdu.unpack pdu_c1 = Some [(4, [1])] /\
  match process_pdus st with
  | Some (_, st') => ue_rx_pdu_queue st' = [] /\
                     forall r l sdu, ~ In (RlcWritePdu r l sdu) (calls st')
  | None => False
  end.
Proof.
  vm_compute. split; [reflexivity|]. split; [reflexivity|].
  split; [reflexivity|]. intros r l sdu [].
Qed.

(** C2 (amended): only the drain loop checks the [started] flag. When the
    MAC is not started the drain loop does nothing; the slot entry point
    and the uplink-receive entry point behave the same whatever the flag
    (full assembly, PHY requests, queue push). *)
Theorem C2_only_drain_loop_checks_started : forall e s tb st b,
  process_pdus (with_started false st) = Some (tt, with_started false st) /\
  slot_indication e s (with_started b st) = with_started_res b (slot_indication e s st) /\
  rx_data_indication tb (with_started b st) = with_started_res b (rx_data_indication tb st).
Proof.
  intros e s tb st b. split; [|split].
  - rewrite process_pdus_drains. destruct st; reflexivity.
  - rewrite !slot_indication_spec, get_dl_config_started.
    destruct (get_dl_config e s _ _ st) as [[[c req] st1]|]; [|reflexivity].
    destruct st1; reflexivity.
  - unfold rx_data_indication. destruct tb; unfold_m; destruct st; reflexivity.
Qed.

(** C2 counterexample: after [stop], slot 1 still reads 62 bytes from
    RLC, builds a unicast PDU and sends a request with one descriptor to
    the PHY, and the uplink-receive entry point still pushes onto the
    queue. *)
Lemma C2_cex :
  started st_stopped = false /\
  slot_indication env_c 1 st_stopped =
    Some (SRSRAN_SUCCESS,
          with_calls [RlcReadPdu 70 UE_LCID 62; PhyDlConfigRequest {| cfg_tti := 1 |};
                      PhyTxRequest {| tx_tti := 1;
                                      pdus := [{| mib_present := false; data0 := UeTxBuffer 1;
                                                  pdu_length := 5; pdu_index := 0 |}] |}]
            (with_tx_buffer [[]; [4; 3; 5; 6; 7]; []; []; []; []; []; []]
              (with_rlc_buffer [5; 6; 7] st_stopped))) /\
  match rx_data_indication (Some [1]) st_stopped with
  | Some (_, st') => ue_rx_pdu_queue st' = [[1]]
  | None => False
  end.
Proof. vm_compute. split; [reflexivity|]. split; reflexivity. Qed.

(** C7: when the buffer at the head of the queue of a started MAC does not
    unpack, [handle_pdu] returns [SRSRAN_ERROR] and leaves the state (call
    trace included) unchanged, so no sub-PDU is delivered; the loop
    iteration pops the buffer, and the drain loop then goes on with the
    rest of the queue exactly as if the buffer had never been queued. *)
Theorem C7_malformed_pdu_skipped : forall st b rest,
  started st = true -> ue_rx_pdu_queue st = b :: rest -> MacPdu.unpack b = None ->
  handle_pdu b st = Some (SRSRAN_ERROR, st) /\
  drain_step st = Some (Some b, with_queue rest st) /\
  process_pdus st = process_pdus (with_queue rest st).
Proof.
  intros st b rest Hs Hq Hb. split; [|split].
  - rewrite handle_pdu_id, Hb. reflexivity.
  - unfold drain_step, wait_pop, handle_pdu; unfold_m. rewrite Hs, Hq. simpl.
    rewrite Hq, Hb. reflexivity.
  - rewrite !process_pdus_drains. destruct st; simpl in *; subst; reflexivity.
Qed.

Lemma C7_witness :
  handle_pdu [0] st_c7 = Some (SRSRAN_ERROR, st_c7) /\
  drain_step st_c7 = Some (Some [0], with_queue [pdu_c1] st_c7) /\
  process_pdus st_c7 = process_pdus (with_queue [pdu_c1] st_c7).
Proof.
  apply (C7_malformed_pdu_skipped st_c7 [0] [pdu_c1]); vm_compute; reflexivity.
Defined.

(** The modelled codec round-trips: packing a list of well-formed
    (LCID, SDU) pairs whose serialized size fits the budget and unpacking
    the result gives the list back, in order; the unicast PDU built from
    [n > 0] RLC bytes unpacks to [(UE_LCID, those n bytes)] when
    [add_sdu] accepts them, i.e. when sub-header and bytes fit the
    transport block. *)
Theorem pack_unpack_roundtrip : forall budget l tb n written,
  (Forall MacPduFacts.wf_subpdu l -> MacPduFacts.total_size l <= budget ->
   MacPdu.unpack (MacPdu.pack_list budget l) = Some l) /\
  (0 < n -> n <= Z.of_nat (length written) -> n < 65536 ->
   MacPdu.size_header_sdu n + n <= tb ->
   MacPdu.unpack (padding_pdu tb n written) = Some [(UE_LCID, firstn (Z.to_nat n) written)]).
Proof.
  intros budget l tb n written. split.
  - intros Hwf Hsz. unfold MacPdu.pack_list, MacPdu.unpack.
    rewrite MacPduFacts.pack_subpdus, MacPduFacts.fold_add_sdu_fits by (simpl; auto).
    apply MacPduFacts.unpack_fuel_pack; simpl; auto.
  - intros Hn Hw H16 Hfit.
    assert (Hlen : Z.of_nat (length (firstn (Z.to_nat n) written)) = n)
      by (rewrite length_firstn; lia).
    unfold padding_pdu, MacPdu.unpack.
    rewrite MacPduFacts.pack_subpdus. unfold MacPdu.add_sdu.
    rewrite Hlen. simpl MacPdu.remaining_len.
    replace ((tb <? MacPdu.size_header_sdu n + n) || (65536 <=? n)) with false
      by (symmetry; apply orb_false_iff; split; [apply Z.ltb_ge | apply Z.leb_gt]; lia).
    simpl MacPdu.subpdus.
    apply MacPduFacts.unpack_fuel_pack; [|apply Nat.eq_le_incl; reflexivity].
    constructor; [|constructor]. unfold MacPduFacts.wf_subpdu; simpl.
    rewrite Hlen. unfold UE_LCID, MacPdu.PADDING. lia.
Qed.




(** C9: the producer (the uplink-receive entry point with a buffer) and
    the consumer (one iteration of the drain loop), interleaved in any
    order on a started MAC with an empty queue: the buffers the consumer
    got, followed by those still queued, are the pushed buffers in push
    order; as many more consumer steps as buffers pushed hand over
    exactly the pushed buffers and leave the queue empty. *)
Theorem C9_queue_fifo : forall l st,
  started st = true -> ue_rx_pdu_queue st = [] ->
  (exists got st', run_schedule l st = Some (got, st') /\
                   got ++ ue_rx_pdu_queue st' = pushed l) /\
  (exists st'', run_schedule (l ++ repeat Consume (length (pushed l))) st =
                  Some (pushed l, st'') /\ ue_rx_pdu_queue st'' = []).
Proof.
  intros l st Hs Hq.
  destruct (run_schedule_fifo l st Hs) as (got & st' & Hrun & Hs' & Heq).
  rewrite Hq in Heq. simpl in Heq.
  split; [exists got, st'; auto|].
  destruct (run_schedule_drain (length (pushed l)) st' Hs')
    as (st'' & Hrun' & Hq'');
    [rewrite <- Heq, length_app; lia|].
  exists st''. rewrite run_schedule_app, Hrun, Hrun', Heq. auto.
Qed.

Lemma C9_witness :
  (exists got st', run_schedule [Produce [1]; Consume; Produce [2]; Produce [3]] st_c =
                     Some (got, st') /\
                   got ++ ue_rx_pdu_queue st' = pushed [Produce [1]; Consume; Produce [2]; Produce [3]]) /\
  (exists st'', run_schedule ([Produce [1]; Consume; Produce [2]; Produce [3]] ++
                   repeat Consume (length (pushed [Produce [1]; Consume; Produce [2]; Produce [3]])))
                  st_c =
                  Some (pushed [Produce [1]; Consume; Produce [2]; Produce [3]], st'') /\
                ue_rx_pdu_queue st'' = []).
Proof. apply C9_queue_fifo; vm_compute; reflexivity. Defined.

(** C10: cell configuration stores the configuration and returns
    success; it reads only the first SIB descriptor of the list: when its
    length is positive it appends [MAX_SIBS] entries with indices
    [0 .. MAX_SIBS - 1], all with the first descriptor's periodicity, and
    otherwise appends none. *)
Theorem C10_cell_cfg_first_sib_only : forall e c st,
  make_byte_buffer_ok e = true ->
  exists added st',
    cell_cfg e c st = Some (SRSRAN_SUCCESS, st') /\
    bcch_dlsch_payload st' = bcch_dlsch_payload st ++ added /\
    cfg st' = c /\
    (0 < len (sibs0 c) ->
       map index added = zseq 0 (Z.to_nat MAX_SIBS) /\
       Forall (fun x => periodicity x = period_rf (sibs0 c)) added) /\
    (len (sibs0 c) <= 0 -> added = []).
Proof.
  intros e c st Hok.
  destruct (cell_cfg_loop_spec e c (Z.to_nat MAX_SIBS) 0 (with_cfg c st) Hok)
    as (st' & Hrun & Hsibs).
  assert (Hcfg : forall n i s0, (forall st1, cell_cfg_loop e c i n s0 = Some (tt, st1) ->
                                  cfg st1 = cfg s0)).
  { induction n as [|n IH]; intros i s0 st1 H.
    - simpl in H. unfold_m. congruence.
    - cbn [cell_cfg_loop] in H. rewrite Hok in H. simpl negb in H.
      destruct (0 <? len (sibs0 c)); unfold_m;
        apply IH in H; rewrite H; destruct s0; reflexivity. }
  exists (if 0 <? len (sibs0 c) then map (cached_sib e c) (zseq 0 (Z.to_nat MAX_SIBS)) else []),
         st'.
  split; [unfold cell_cfg; unfold_m; rewrite Hrun; reflexivity|].
  split; [rewrite Hsibs; destruct st; reflexivity|].
  split; [apply Hcfg in Hrun; rewrite Hrun; destruct st; reflexivity|].
  split.
  - intros Hpos. replace (0 <? len (sibs0 c)) with true by (symmetry; apply Z.ltb_lt; exact Hpos).
    split; [rewrite map_map; apply map_id|].
    apply Forall_forall. intros x Hx. apply in_map_iff in Hx as [i [<- _]]. reflexivity.
  - intros Hle. replace (0 <? len (sibs0 c)) with false by (symmetry; apply Z.ltb_ge; exact Hle).
    reflexivity.
Qed.

Lemma C10_witness :
  exists added st',
    cell_cfg env_c {| sibs := [{| len := 1; period_rf := 8 |}; {| len := 0; period_rf := 2 |}] |}
      st_c = Some (SRSRAN_SUCCESS, st') /\
    bcch_dlsch_payload st' = bcch_dlsch_payload st_c ++ added /\
    cfg st' = {| sibs := [{| len := 1; period_rf := 8 |}; {| len := 0; period_rf := 2 |}] |} /\
    (0 < len (sibs0 {| sibs := [{| len := 1; period_rf := 8 |}; {| len := 0; period_rf := 2 |}] |}) ->
       map index added = zseq 0 (Z.to_nat MAX_SIBS) /\
       Forall (fun x => periodicity x =
                 period_rf (sibs0 {| sibs := [{| len := 1; period_rf := 8 |};
                                              {| len := 0; period_rf := 2 |}] |})) added) /\
    (len (sibs0 {| sibs := [{| len := 1; period_rf := 8 |}; {| len := 0; period_rf := 2 |}] |}) <= 0 ->
       added = []).
Proof. apply C10_cell_cfg_first_sib_only. reflexivity. Defined.

(* ================================================================== *)
(** * Further properties of the code *)

(** With a working buffer pool, [stop] followed by [init] ends in the same
    state and result as [init] alone: [stop] only clears [started], which
    [init] sets again. *)
Theorem stop_then_init : forall e a st,
  make_byte_buffer_ok e = true ->
  run (stop ;;; init e a) st = init e a st.
Proof.
  intros e a st Hok. unfold stop. unfold_m.
  destruct (started st); simpl; rewrite !init_ok by exact Hok; destruct st; reflexivity.
Qed.

Lemma stop_then_init_witness :
  run (stop ;;; init env_c args_c) st_c = init env_c args_c st_c.
Proof. apply stop_then_init. reflexivity. Defined.

(** A completed slot returns [SRSRAN_SUCCESS] and never changes the
    [started] flag, the arguments, the cell configuration, the SIB cache,
    the uplink receive queue, the number of HARQ buffers, nor any HARQ
    buffer other than [ue_tx_buffer[s % SRSRAN_FDD_NOF_HARQ]]. *)
Theorem slot_indication_touches_one_harq_buffer : forall e s st r st2,
  slot_indication e s st = Some (r, st2) ->
  r = SRSRAN_SUCCESS /\
  started st2 = started st /\ args st2 = args st /\ cfg st2 = cfg st /\
  bcch_dlsch_payload st2 = bcch_dlsch_payload st /\
  ue_rx_pdu_queue st2 = ue_rx_pdu_queue st /\
  length (ue_tx_buffer st2) = length (ue_tx_buffer st) /\
  (forall i, i <> s mod SRSRAN_FDD_NOF_HARQ ->
     vec_at (ue_tx_buffer st2) i = vec_at (ue_tx_buffer st) i).
Proof.
  intros e s st r st2 H.
  destruct (slot_indication_frame _ _ _ _ _ H) as (Hr & (H1 & H2 & H3 & H4 & H5) & Hl & Ho).
  auto 10.
Qed.

Lemma slot_indication_touches_one_harq_buffer_witness :
  slot_indication env_c 1 st_c = Some (SRSRAN_SUCCESS, state_after (slot_indication env_c 1) st_c) /\
  SRSRAN_SUCCESS = SRSRAN_SUCCESS /\
  started (state_after (slot_indication env_c 1) st_c) = started st_c /\
  args (state_after (slot_indication env_c 1) st_c) = args st_c /\
  cfg (state_after (slot_indication env_c 1) st_c) = cfg st_c /\
  bcch_dlsch_payload (state_after (slot_indication env_c 1) st_c) = bcch_dlsch_payload st_c /\
  ue_rx_pdu_queue (state_after (slot_indication env_c 1) st_c) = ue_rx_pdu_queue st_c /\
  length (ue_tx_buffer (state_after (slot_indication env_c 1) st_c)) =
    length (ue_tx_buffer st_c) /\
  (forall i, i <> 1 mod SRSRAN_FDD_NOF_HARQ ->
     vec_at (ue_tx_buffer (state_after (slot_indication env_c 1) st_c)) i =
     vec_at (ue_tx_buffer st_c) i).
Proof.
  assert (H : slot_indication env_c 1 st_c =
              Some (SRSRAN_SUCCESS, state_after (slot_indication env_c 1) st_c))
    by (vm_compute; reflexivity).
  split; [exact H|]. exact (slot_indication_touches_one_harq_buffer _ _ _ _ _ H).
Defined.

(** In a slot that carries the MIB or a due SIB, the MAC makes no RLC
    read: the only calls are the BCH read from RRC (in slots
    [s mod 80 = 0]) and the two PHY requests, the request has at least
    one descriptor, and the HARQ buffers and the RLC buffer are left
    as they were. *)
Theorem broadcast_slot_skips_rlc : forall e s st,
  slot_ok st s ->
  mib_pdus e s <> [] \/ filter (sib_due s) (bcch_dlsch_payload st) <> [] ->
  exists req st2,
    slot_indication e s st = Some (SRSRAN_SUCCESS, st2) /\
    calls st2 = calls st ++ (if s mod 80 =? 0 then [RrcReadPduBcchBch s] else []) ++
                [PhyDlConfigRequest {| cfg_tti := s |}; PhyTxRequest req] /\
    pdus req <> [] /\
    ue_tx_buffer st2 = ue_tx_buffer st /\ ue_rlc_buffer st2 = ue_rlc_buffer st.
Proof.
  intros e s st Hok Hbc.
  destruct (get_dl_config_spec e s st {| cfg_tti := 0 |} Hok)
    as (ds0 & st0' & req3' & st1 & _ & Hget & _).
  destruct (get_dl_config_split _ _ _ _ _ _ _ (proj2 (proj2 Hok)) Hget)
    as (st0 & ds & req3 & Hb & Hlen & Hpad & _ & Hreq).
  rewrite Hreq in Hget.
  assert (Hne : mib_pdus e s ++ ds <> []).
  { intros H. apply app_eq_nil in H as [H1 H2]. subst ds.
    destruct Hbc as [Hm|Hf]; [contradiction|].
    destruct (filter (sib_due s) (bcch_dlsch_payload st)); [contradiction|discriminate]. }
  rewrite dl_config_padding_nonempty in Hpad by exact Hne.
  injection Hpad as <- <-.
  destruct (dl_config_bch_frame _ _ _ _ _ _ Hb) as (_ & Htx & Hrlc & Hcalls).
  exists (set_tti s {| tx_tti := 0; pdus := mib_pdus e s ++ ds |}),
         (with_calls (calls st0 ++ [PhyDlConfigRequest {| cfg_tti := s |};
            PhyTxRequest (set_tti s {| tx_tti := 0; pdus := mib_pdus e s ++ ds |})]) st0).
  rewrite slot_indication_spec, Hget. split; [reflexivity|].
  split; [simpl; rewrite Hcalls, <- app_assoc; reflexivity|].
  split; [exact Hne|]. destruct st0; simpl in *. auto.
Qed.

Lemma broadcast_slot_skips_rlc_witness :
  exists req st2,
    slot_indication env_c 0 st_c = Some (SRSRAN_SUCCESS, st2) /\
    calls st2 = calls st_c ++ (if 0 mod 80 =? 0 then [RrcReadPduBcchBch 0] else []) ++
                [PhyDlConfigRequest {| cfg_tti := 0 |}; PhyTxRequest req] /\
    pdus req <> [] /\
    ue_tx_buffer st2 = ue_tx_buffer st_c /\ ue_rlc_buffer st2 = ue_rlc_buffer st_c.
Proof.
  apply broadcast_slot_skips_rlc.
  - split; [lia|split; [vm_compute; lia|constructor]].
  - left. vm_compute. discriminate.
Defined.

(** In a slot with no broadcast content where RLC returns zero or a
    negative length, the MAC still sends the PHY a TX request, with no
    descriptor, and leaves the HARQ buffer [s % SRSRAN_FDD_NOF_HARQ]
    cleared: the PDU it held is discarded. The calls of the slot are the
    BCH read (in slots [s mod 80 = 0]), the RLC read and the two PHY
    requests. *)
Theorem empty_slot_clears_harq_buffer : forall e s st,
  slot_ok st s -> mib_pdus e s = [] -> filter (sib_due s) (bcch_dlsch_payload st) = [] ->
  fst (rlc_read_pdu e (rnti (args st)) UE_LCID (u32 (tb_size (args st) - 2))) <= 0 ->
  exists st2,
    slot_indication e s st = Some (SRSRAN_SUCCESS, st2) /\
    calls st2 = calls st ++ (if s mod 80 =? 0 then [RrcReadPduBcchBch s] else []) ++
      [RlcReadPdu (rnti (args st)) UE_LCID (u32 (tb_size (args st) - 2));
       PhyDlConfigRequest {| cfg_tti := s |}; PhyTxRequest {| tx_tti := s; pdus := [] |}] /\
    vec_at (ue_tx_buffer st2) (s mod SRSRAN_FDD_NOF_HARQ) = Some [].
Proof.
  intros e s st Hok Hmib Hdue Hle.
  pose proof (padding_slot e s st Hok Hmib Hdue) as Hp. cbv zeta in Hp.
  destruct (rlc_read_pdu e (rnti (args st)) UE_LCID (u32 (tb_size (args st) - 2)))
    as [pdu_len written]. simpl in Hle.
  destruct Hp as (req & st2 & Hs & Hc & Hreq & Hv).
  rewrite (Hreq Hle) in Hc.
  replace (0 <? pdu_len) with false in Hv by (symmetry; apply Z.ltb_ge; lia).
  exists st2. auto.
Qed.

Lemma empty_slot_clears_harq_buffer_witness :
  exists st2,
    slot_indication env_idle 1 st_c = Some (SRSRAN_SUCCESS, st2) /\
    calls st2 = calls st_c ++ (if 1 mod 80 =? 0 then [RrcReadPduBcchBch 1] else []) ++
      [RlcReadPdu (rnti (args st_c)) UE_LCID (u32 (tb_size (args st_c) - 2));
       PhyDlConfigRequest {| cfg_tti := 1 |}; PhyTxRequest {| tx_tti := 1; pdus := [] |}] /\
    vec_at (ue_tx_buffer st2) (1 mod SRSRAN_FDD_NOF_HARQ) = Some [].
Proof.
  apply empty_slot_clears_harq_buffer.
  - split; [lia|split; [vm_compute; lia|constructor]].
  - vm_compute. reflexivity.
  - vm_compute. reflexivity.
  - vm_compute. discriminate.
Defined.

(** The RLC request size [args.tb_size - 2] is an unsigned 32-bit value:
    with a transport block of 0 or 1 bytes, the padding step asks RLC for
    [tb_size + 4294967294] bytes. *)
Theorem small_tb_size_request_wraps : forall e s st,
  slot_ok st s -> mib_pdus e s = [] -> filter (sib_due s) (bcch_dlsch_payload st) = [] ->
  0 <= tb_size (args st) < 2 ->
  exists st2,
    slot_indication e s st = Some (SRSRAN_SUCCESS, st2) /\
    In (RlcReadPdu (rnti (args st)) UE_LCID (tb_size (args st) + 4294967294)) (calls st2).
Proof.
  intros e s st Hok Hmib Hdue Htb.
  assert (Hw : u32 (tb_size (args st) - 2) = tb_size (args st) + 4294967294).
  { unfold u32. change (2 ^ 32) with 4294967296.
    rewrite <- (Z.mod_add _ 1) by lia. rewrite Z.mod_small by lia. lia. }
  pose proof (padding_slot e s st Hok Hmib Hdue) as Hp. cbv zeta in Hp.
  destruct (rlc_read_pdu e (rnti (args st)) UE_LCID (u32 (tb_size (args st) - 2)))
    as [pdu_len written].
  destruct Hp as (req & st2 & Hs & Hc & _). rewrite Hw in Hc. exists st2. split; [exact Hs|].
  rewrite Hc. apply in_app_iff. right. apply in_app_iff. right. left. reflexivity.
Qed.

Lemma small_tb_size_request_wraps_witness :
  exists st2,
    slot_indication env_c 1 (with_args {| rnti := 70; tb_size := 1 |} st_c) =
      Some (SRSRAN_SUCCESS, st2) /\
    In (RlcReadPdu (rnti (args (with_args {| rnti := 70; tb_size := 1 |} st_c))) UE_LCID
          (tb_size (args (with_args {| rnti := 70; tb_size := 1 |} st_c)) + 4294967294))
       (calls st2).
Proof.
  apply small_tb_size_request_wraps.
  - split; [lia|split; [vm_compute; lia|constructor]].
  - vm_compute. reflexivity.
  - vm_compute. reflexivity.
  - simpl. lia.
Defined.

(** Every descriptor of the TX request a slot sends to the PHY points at
    a buffer of the MAC (the BCH payload, a cached SIB payload or a HARQ
    buffer), and its [length] is the size of that buffer after the
    slot. *)
Theorem tx_request_lengths_match_buffers : forall e s st,
  slot_ok st s ->
  exists req st2,
    slot_indication e s st = Some (SRSRAN_SUCCESS, st2) /\
    (exists pre, calls st2 = pre ++ [PhyTxRequest req]) /\
    Forall (describes st2) (pdus req).
Proof.
  intros e s st Hok.
  destruct (get_dl_config_spec e s st {| cfg_tti := 0 |} Hok)
    as (ds0 & st0 & req3 & st1 & _ & Hget & _).
  pose proof (get_dl_config_describes _ _ _ _ _ _ _ Hget) as Hd.
  exists (set_tti s req3),
         (with_calls (calls st1 ++ [PhyDlConfigRequest {| cfg_tti := s |};
                                    PhyTxRequest (set_tti s req3)]) st1).
  rewrite slot_indication_spec, Hget. split; [reflexivity|].
  split; [exists (calls st1 ++ [PhyDlConfigRequest {| cfg_tti := s |}]);
          simpl; rewrite <- app_assoc; reflexivity|].
  eapply Forall_impl; [|exact Hd]. intros d (b & Hb & Hl). exists b.
  destruct st1; split; assumption.
Qed.

Lemma tx_request_lengths_match_buffers_witness :
  exists req st2,
    slot_indication env_c 0 st_w = Some (SRSRAN_SUCCESS, st2) /\
    (exists pre, calls st2 = pre ++ [PhyTxRequest req]) /\
    Forall (describes st2) (pdus req).
Proof.
  apply tx_request_lengths_match_buffers.
  split; [lia|split; [vm_compute; lia|]].
  repeat constructor. vm_compute. discriminate.
Defined.

(** The life cycle [init], [cell_cfg], then any slot never crashes when
    the buffer pool works and no non-empty SIB has a 32-bit period
    product of 0: [init] and [cell_cfg] return [SRSRAN_SUCCESS] and the
    slot completes ([ue_tx_buffer.at] finds its buffer and no modulo
    divides by zero). *)
Theorem init_cell_cfg_slot_completes : forall e a c st s,
  make_byte_buffer_ok e = true -> sibs_divisible (bcch_dlsch_payload st) ->
  (0 < len (sibs0 c) -> u32 (period_rf (sibs0 c) * 10) <> 0) -> 0 <= s ->
  exists st1 st2 st3,
    init e a st = Some (SRSRAN_SUCCESS, st1) /\
    cell_cfg e c st1 = Some (SRSRAN_SUCCESS, st2) /\
    slot_indication e s st2 = Some (SRSRAN_SUCCESS, st3).
Proof.
  intros e a c st s Hok Hdiv Hper Hs.
  destruct (cell_cfg_loop_spec e c (Z.to_nat MAX_SIBS) 0 (with_cfg c (init_state a st)) Hok)
    as (st2 & Hrun & Hsibs).
  pose proof (cell_cfg_loop_frame _ _ _ _ _ _ Hrun) as (_ & _ & _ & Htx).
  assert (Hok2 : slot_ok st2 s).
  { split; [exact Hs|]. split.
    - rewrite Htx. unfold init_state. simpl. rewrite length_app. simpl. lia.
    - unfold sibs_divisible. rewrite Hsibs.
      change (bcch_dlsch_payload (with_cfg c (init_state a st))) with (bcch_dlsch_payload st).
      apply Forall_app. split; [exact Hdiv|].
      destruct (0 <? len (sibs0 c)) eqn:Hl; [|constructor].
      apply Forall_forall. intros x Hx. apply in_map_iff in Hx as [i [<- _]].
      intros _. simpl. apply Hper. apply Z.ltb_lt. exact Hl. }
  destruct (get_dl_config_spec e s st2 {| cfg_tti := 0 |} Hok2)
    as (ds & st0 & req3 & st3 & _ & Hget & _).
  exists (init_state a st), st2.
  eexists. split; [apply init_ok; exact Hok|].
  split; [unfold cell_cfg; unfold_m; rewrite Hrun; reflexivity|].
  rewrite slot_indication_spec, Hget. reflexivity.
Qed.

Lemma init_cell_cfg_slot_completes_witness :
  exists st1 st2 st3,
    init env_c args_c mac_nr_new = Some (SRSRAN_SUCCESS, st1) /\
    cell_cfg env_c cfg_c16 st1 = Some (SRSRAN_SUCCESS, st2) /\
    slot_indication env_c 160 st2 = Some (SRSRAN_SUCCESS, st3).
Proof.
  apply init_cell_cfg_slot_completes.
  - reflexivity.
  - constructor.
  - intros _. vm_compute. discriminate.
  - lia.
Defined.

(** Before [init] has allocated the HARQ buffers, a slot with no
    broadcast content crashes: [ue_tx_buffer.at(s % SRSRAN_FDD_NOF_HARQ)]
    is out of range and throws. *)
Theorem slot_before_init_crashes : forall e s st,
  0 <= s -> (length (ue_tx_buffer st) <= Z.to_nat (s mod SRSRAN_FDD_NOF_HARQ))%nat ->
  sibs_divisible (bcch_dlsch_payload st) ->
  mib_pdus e s = [] -> filter (sib_due s) (bcch_dlsch_payload st) = [] ->
  slot_indication e s st = None.
Proof.
  intros e s st Hs Hlen Hdiv Hmib Hdue.
  destruct (dl_config_bch_spec e s st) as (st0 & Hb & _ & Hsb & Htx & _).
  assert (Hidx : indexed {| tx_tti := 0; pdus := mib_pdus e s |})
    by (rewrite Hmib; intros i d Hd; destruct i; discriminate).
  destruct (dl_config_sibs_spec s (bcch_dlsch_payload st) 0 _ Hdiv Hidx)
    as (ds & Hsibs & _ & _ & Hl & _).
  rewrite Hdue in Hl. destruct ds; [|discriminate].
  rewrite slot_indication_spec. unfold get_dl_config. unfold_m.
  rewrite Hb, Hsb, Hsibs. simpl. rewrite Hmib. unfold dl_config_padding. simpl.
  unfold_m. unfold vec_at.
  replace (s mod SRSRAN_FDD_NOF_HARQ <? 0) with false
    by (symmetry; apply Z.ltb_ge, Z.mod_pos_bound; unfold SRSRAN_FDD_NOF_HARQ; lia).
  rewrite Htx. replace (nth_error _ _) with (@None bytes)
    by (symmetry; apply nth_error_None; exact Hlen).
  reflexivity.
Qed.

Lemma slot_before_init_crashes_witness :
  slot_indication env_c 1 mac_nr_new = None.
Proof.
  apply slot_before_init_crashes.
  - lia.
  - vm_compute. lia.
  - constructor.
  - vm_compute. reflexivity.
  - vm_compute. reflexivity.
Defined.

(** [cell_cfg] appends to the SIB cache and never clears it: configuring
    the cell twice, each time with a positive first SIB length, leaves the
    [MAX_SIBS] entries of the first configuration followed by the
    [MAX_SIBS] entries of the second, 32 in all, so each SIB index is
    cached twice. *)
Theorem cell_cfg_twice_appends : forall e c1 c2 st,
  make_byte_buffer_ok e = true -> 0 < len (sibs0 c1) -> 0 < len (sibs0 c2) ->
  exists st1 st2,
    cell_cfg e c1 st = Some (SRSRAN_SUCCESS, st1) /\
    cell_cfg e c2 st1 = Some (SRSRAN_SUCCESS, st2) /\
    bcch_dlsch_payload st2 =
      bcch_dlsch_payload st ++ map (cached_sib e c1) (zseq 0 (Z.to_nat MAX_SIBS)) ++
      map (cached_sib e c2) (zseq 0 (Z.to_nat MAX_SIBS)) /\
    length (bcch_dlsch_payload st2) = (length (bcch_dlsch_payload st) + 32)%nat.
Proof.
  intros e c1 c2 st Hok H1 H2.
  destruct (cell_cfg_loop_spec e c1 (Z.to_nat MAX_SIBS) 0 (with_cfg c1 st) Hok)
    as (st1 & Hr1 & Hs1).
  destruct (cell_cfg_loop_spec e c2 (Z.to_nat MAX_SIBS) 0 (with_cfg c2 st1) Hok)
    as (st2 & Hr2 & Hs2).
  apply Z.ltb_lt in H1, H2. rewrite H1 in Hs1. rewrite H2 in Hs2.
  exists st1, st2.
  split; [unfold cell_cfg; unfold_m; rewrite Hr1; reflexivity|].
  split; [unfold cell_cfg; unfold_m; rewrite Hr2; reflexivity|].
  assert (Heq : bcch_dlsch_payload st2 =
      bcch_dlsch_payload st ++ map (cached_sib e c1) (zseq 0 (Z.to_nat MAX_SIBS)) ++
      map (cached_sib e c2) (zseq 0 (Z.to_nat MAX_SIBS))).
  { rewrite Hs2. simpl. rewrite Hs1. simpl. rewrite <- app_assoc. destruct st; reflexivity. }
  split; [exact Heq|]. rewrite Heq, !length_app, !length_map. reflexivity.
Qed.

Lemma cell_cfg_twice_appends_witness :
  exists st1 st2,
    cell_cfg env_c cfg_c16 st_c = Some (SRSRAN_SUCCESS, st1) /\
    cell_cfg env_c cfg_c8 st1 = Some (SRSRAN_SUCCESS, st2) /\
    bcch_dlsch_payload st2 =
      bcch_dlsch_payload st_c ++ map (cached_sib env_c cfg_c16) (zseq 0 (Z.to_nat MAX_SIBS)) ++
      map (cached_sib env_c cfg_c8) (zseq 0 (Z.to_nat MAX_SIBS)) /\
    length (bcch_dlsch_payload st2) = (length (bcch_dlsch_payload st_c) + 32)%nat.
Proof. apply cell_cfg_twice_appends; vm_compute; reflexivity. Defined.
